(** * Tunnel detection in the UAVI reasoning graph

    A shallow embedding of [docs/insight_engine.py] (the class
    [InsightAwareKernel]) and [docs/uavi_humor.py] (the class
    [HumorAwareKernel]), and the properties of their results.

    The Python values are modelled as the interpreter has them:
    - [int] is an unbounded integer, [Z];
    - [float] is an IEEE-754 binary64 number, the [spec_float] of the
      standard library with [prec = 53] and [emax = 1024]; the operations
      are the library's ([SFdiv], [binary_round_aux], ...), which round to
      nearest, ties to even;
    - an exception is a value of [exn], carried by the [result] type;
    - a method of a kernel object is a function in the monad [M Self],
      which threads the object [self : Self] and may raise;
    - a [str] is a [string] of the same characters; the conversion
      [int(s)] is modelled on the strings of ASCII characters;
    - a [set] of strings is a [gset string]. *)

From Stdlib Require Import ZArith QArith Qpower Lia Bool List String Ascii.
From Stdlib Require Import Floats.SpecFloat.
From stdpp Require Import base strings gmap sets.

Local Open Scope Z_scope.

(** ** Exceptions and results *)

(** [ValueError], [OverflowError] and [ZeroDivisionError] are the built-in
    exceptions the expressions of the two files can raise.  [InvalidInput]
    and [NodeNotFound] are the errors the design document names; no
    statement of the sources raises them. *)
Inductive exn : Type :=
  | ValueError
  | OverflowError
  | ZeroDivisionError
  | InvalidInput
  | NodeNotFound.

Inductive result (A : Type) : Type :=
  | Ok (a : A)
  | Raise (e : exn).

Arguments Ok {A} a.
Arguments Raise {A} e.

Definition result_bind {A B : Type} (r : result A) (k : A -> result B) : result B :=
  match r with
  | Ok a => k a
  | Raise e => Raise e
  end.

(** A method call on an object of type [Self]: it receives [self], returns or
    raises, and leaves [self] in a possibly different state. *)
Definition M (Self A : Type) : Type := Self -> result A * Self.

Definition ret {Self A : Type} (a : A) : M Self A := fun self => (Ok a, self).

Definition bind {Self A B : Type} (m : M Self A) (k : A -> M Self B) : M Self B :=
  fun self =>
    match m self with
    | (Ok a, self') => k a self'
    | (Raise e, self') => (Raise e, self')
    end.

(** A pure expression that may raise, evaluated inside a method. *)
Definition lift {Self A : Type} (r : result A) : M Self A := fun self => (r, self).

Declare Scope py_scope.
Delimit Scope py_scope with py.
Notation "'let*' x ':=' m 'in' k" := (bind m (fun x => k))
  (at level 10, x name, m at level 100, k at level 200, only parsing) : py_scope.

(** ** Floating point: binary64 *)

Abbreviation float := spec_float.

Definition prec : Z := 53.
Definition emax : Z := 1024.

(** The literals [1.0] and [10.0]; both are integers below [2^53], so the
    nearest double is the integer itself. *)
Definition float_1 : float := S754_finite false 4503599627370496 (-52).
Definition float_10 : float := S754_finite false 5629499534213120 (-49).

(** The real number an IEEE value stands for, as a rational: [m * 2^e]
    with its sign; the zeros are [0].  (Infinities and NaN have no value;
    the comparisons below treat them apart.) *)
Definition SF2Q (x : float) : Q :=
  match x with
  | S754_finite s m e => inject_Z (if s then Z.neg m else Z.pos m) * (2 ^ e)%Q
  | _ => 0%Q
  end.

(** [x ? n] for a float [x] and an int [n].  Python compares the two by
    their exact values (it does not round [n] to a float first); a NaN is
    unordered, which makes every comparison with it false. *)
Definition float_cmp_int (x : float) (n : Z) : option comparison :=
  match x with
  | S754_nan => None
  | S754_infinity s => Some (if s then Lt else Gt)
  | _ => Some (SF2Q x ?= inject_Z n)%Q
  end.

Definition float_gt_int (x : float) (n : Z) : bool :=
  match float_cmp_int x n with Some Gt => true | _ => false end.

Definition float_ge_int (x : float) (n : Z) : bool :=
  match float_cmp_int x n with Some (Gt | Eq) => true | _ => false end.

Definition float_le_int (x : float) (n : Z) : bool :=
  match float_cmp_int x n with Some (Lt | Eq) => true | _ => false end.

Definition float_eq_int (x : float) (n : Z) : bool :=
  match float_cmp_int x n with Some Eq => true | _ => false end.

(** [x ? y] for two floats, by value as well: IEEE comparison, where the
    two zeros are equal and a NaN is unordered. *)
Definition float_cmp (x y : float) : option comparison :=
  match x, y with
  | S754_nan, _ | _, S754_nan => None
  | S754_infinity s1, S754_infinity s2 =>
      Some (if s1 then (if s2 then Eq else Lt) else (if s2 then Gt else Eq))
  | S754_infinity s, _ => Some (if s then Lt else Gt)
  | _, S754_infinity s => Some (if s then Gt else Lt)
  | _, _ => Some (SF2Q x ?= SF2Q y)%Q
  end.

Definition float_le (x y : float) : bool :=
  match float_cmp x y with Some (Lt | Eq) => true | _ => false end.

Definition is_zero (x : float) : bool :=
  match x with S754_zero _ => true | _ => false end.

(** [float(n)] for an int [n], as the interpreter converts an int operand
    of a float operation: the nearest double, ties to even, and
    [OverflowError] when that is beyond the largest double. *)
Definition float_of_int (n : Z) : result float :=
  match binary_normalize prec emax n 0 false with
  | S754_infinity _ => Raise OverflowError
  | x => Ok x
  end.

(** [x / y] on floats: [ZeroDivisionError] on a zero divisor, the IEEE
    quotient otherwise. *)
Definition float_truediv (x y : float) : result float :=
  if is_zero y then Raise ZeroDivisionError else Ok (SFdiv prec emax x y).

(** [x / n] for a float [x] and an int [n]: [n] is converted first. *)
Definition float_truediv_int (x : float) (n : Z) : result float :=
  result_bind (float_of_int n) (fun y => float_truediv x y).

(** [a / b] on ints (true division): the quotient of the two integers
    rounded once to the nearest double, [ZeroDivisionError] on [b = 0] and
    [OverflowError] when the rounded quotient is beyond the largest double.
    The integers are taken as mantissas with exponent 0. *)
Definition int_truediv (a b : Z) : result float :=
  if b =? 0 then Raise ZeroDivisionError
  else
    let s := xorb (a <? 0) (b <? 0) in
    let '(q, e, l) := SFdiv_core_binary prec emax (Z.abs a) 0 (Z.abs b) 0 in
    match binary_round_aux prec emax s q e l with
    | S754_infinity _ => Raise OverflowError
    | x => Ok x
    end.

(** ** [int(s)] on a string *)

(** A [str] is modelled by the Rocq [string] with the same characters.
    The model of [int] and of the slice [s[1:]] below is that of the
    interpreter on the strings of ASCII characters, those for which
    [s.isascii()] holds: there one character is one code point, the white
    space [int] skips is the ASCII white space, and the digits are ['0']
    to ['9'].  (On other strings [int] also takes the white space and the
    decimal digits of Unicode, which this model leaves out; the statements
    about identifiers assume [isascii].) *)
Definition is_ascii_char (c : ascii) : bool :=
  (N_of_ascii c <? 128)%N.

(** [s.isascii()] *)
Fixpoint isascii (s : string) : bool :=
  match s with
  | EmptyString => true
  | String c t => is_ascii_char c && isascii t
  end.

(** The white space [int] skips around an ASCII literal: tab, line feed,
    vertical tab, form feed, carriage return (9 to 13) and the space (32).
    The separators 28 to 31, which [str.isspace] accepts, are not
    skipped. *)
Definition is_space (c : ascii) : bool :=
  let n := N.to_nat (N_of_ascii c) in
  ((9 <=? n)%nat && (n <=? 13)%nat) || Nat.eqb n 32.

Definition digit_of (c : ascii) : option Z :=
  let n := Z.of_N (N_of_ascii c) in
  if (48 <=? n) && (n <=? 57) then Some (n - 48) else None.

Fixpoint lstrip (s : string) : string :=
  match s with
  | String c t => if is_space c then lstrip t else s
  | EmptyString => EmptyString
  end.

Definition string_rev (s : string) : string :=
  string_of_list_ascii (List.rev (list_ascii_of_string s)).

Definition strip (s : string) : string :=
  string_rev (lstrip (string_rev (lstrip s))).

(** Decimal digits, where a single underscore may stand between two
    digits.  [after_digit] says whether the character before was a digit;
    [digits] counts the digits read so far (the underscores are not
    counted, the leading zeros are).  The result is the number of digits
    and their value. *)
Fixpoint parse_digits (digits acc : Z) (after_digit : bool) (s : string)
  : option (Z * Z) :=
  match s with
  | EmptyString => if after_digit then Some (digits, acc) else None
  | String c t =>
      match digit_of c with
      | Some d => parse_digits (digits + 1) (10 * acc + d) true t
      | None =>
          if Ascii.eqb c "_"%char && after_digit then parse_digits digits acc false t
          else None
      end
  end.

(** The largest number of digits [int] converts, as the interpreter
    starts with: [sys.get_int_max_str_digits()] is 4300 unless the program
    or its environment changes it, and the two files do not. *)
Definition int_max_str_digits : Z := 4300.

(** [int(s)] in base 10 for a string of ASCII characters: surrounding
    white space is dropped, one sign is allowed, then digits; anything else
    is a [ValueError], and so is a literal of more than
    [int_max_str_digits] digits. *)
Definition py_int (s : string) : result Z :=
  let body := strip s in
  let parsed :=
    match body with
    | String "+"%char t => parse_digits 0 0 false t
    | String "-"%char t =>
        option_map (fun '(digits, n) => (digits, - n)) (parse_digits 0 0 false t)
    | _ => parse_digits 0 0 false body
    end in
  match parsed with
  | Some (digits, n) =>
      if int_max_str_digits <? digits then Raise ValueError else Ok n
  | None => Raise ValueError
  end.

(** The slice [s[1:]]: the string without its first character. *)
Definition slice_from_1 (s : string) : string :=
  match s with
  | String _ t => t
  | EmptyString => EmptyString
  end.

(** ** The graph kernel's data ([uavi_core]) *)

(** Modelled from the spec: the module [uavi_core], which declares
    [ThoughtNode], [NodeType], [CausalEdge], [EdgeType] and [GraphKernel],
    is not among the sources.  A node has an identifier, a kind, a text
    and a metadata mapping; the two files only read the identifier and
    the entry ['tags'] of the metadata, a list of strings. *)
Inductive NodeType : Type :=
  | PREMISE
  | CLAIM
  | OTHER (kind : string).

(** Modelled from the spec: a node, with the four fields the two files
    pass to its constructor. *)
Record ThoughtNode : Type := {
  id : string;
  node_type : NodeType;
  content : string;
  metadata : gmap string (list string)
}.

(** Modelled from the spec: the state of a [GraphKernel] object, the
    nodes by identifier and the directed edges between identifiers. *)
Record GraphKernel : Type := {
  nodes : gmap string ThoughtNode;
  edges : list (string * string)
}.

(** ** [insight_engine.py] *)

Module insight_engine.

(** The four values the field [magnitude] takes; [magnitude_str] gives
    the string the source writes for each. *)
Inductive Magnitude : Type :=
  | Minor
  | Major
  | Epiphany
  | ParadigmShift.

Definition magnitude_str (m : Magnitude) : string :=
  match m with
  | Minor => "Minor"
  | Major => "Major"
  | Epiphany => "Epiphany"
  | ParadigmShift => "Paradigm Shift"
  end.

(** The order [Minor < Major < Epiphany < ParadigmShift]. *)
Definition magnitude_rank (m : Magnitude) : nat :=
  match m with
  | Minor => 0
  | Major => 1
  | Epiphany => 2
  | ParadigmShift => 3
  end.

Record InsightEvent : Type := {
  source_id : string;
  target_id : string;
  surface_distance : Z;
  tunnel_distance : Z;
  compression_ratio : float;
  magnitude : Magnitude
}.

(** Step 5 of [calculate_connection_capacity]: [magnitude] starts as
    ["Minor"] and three [if] statements in a row overwrite it. *)
Definition classify_magnitude (ratio : float) : Magnitude :=
  let magnitude := Minor in
  let magnitude := if float_gt_int ratio 2 then Major else magnitude in
  let magnitude := if float_gt_int ratio 5 then Epiphany else magnitude in
  let magnitude := if float_gt_int ratio 10 then ParadigmShift else magnitude in
  magnitude.

(** The two methods [calculate_connection_capacity] calls on [self]; a
    subclass may override them, so the caller is written against this
    interface.  [Self] is the type of the object. *)
Class Kernel (Self : Type) : Type := {
  _get_graph_distance : string -> string -> M Self Z;
  _check_resonance : ThoughtNode -> ThoughtNode -> M Self bool
}.

Section Methods.
Context {Self : Type} {K : Kernel Self}.
Local Open Scope py_scope.

Definition calculate_connection_capacity (node_a node_b : ThoughtNode)
  : M Self (option InsightEvent) :=
  let* current_path_len := _get_graph_distance (id node_a) (id node_b) in
  if current_path_len <=? 1 then ret None
  else
    let tunnel_len := 1 in
    let* resonance := _check_resonance node_a node_b in
    if negb resonance then ret None
    else
      let* ratio := lift (int_truediv current_path_len tunnel_len) in
      let magnitude := classify_magnitude ratio in
      ret (Some {| source_id := id node_a;
                   target_id := id node_b;
                   surface_distance := current_path_len;
                   tunnel_distance := tunnel_len;
                   compression_ratio := ratio;
                   magnitude := magnitude |}).
End Methods.

(** The methods as [InsightAwareKernel] defines them: a distance taken
    from the numbers in the two identifiers, without a look at the
    graph, and a resonance check that always succeeds. *)
Definition mock_graph_distance (start end_ : string) : M GraphKernel Z :=
  (let* a := lift (py_int (slice_from_1 start)) in
   let* b := lift (py_int (slice_from_1 end_)) in
   ret (Z.abs (a - b)))%py.

Definition mock_check_resonance (a b : ThoughtNode) : M GraphKernel bool :=
  ret true.

#[global] Instance InsightAwareKernel : Kernel GraphKernel := {
  _get_graph_distance := mock_graph_distance;
  _check_resonance := mock_check_resonance
}.

(** The two nodes of [demonstrate_aha_moment]. *)
Definition n1 : ThoughtNode :=
  {| id := "n1"; node_type := PREMISE;
     content := "Light creates interference patterns."; metadata := ∅ |}.

Definition n10 : ThoughtNode :=
  {| id := "n10"; node_type := CLAIM;
     content := "Light ejects electrons as particles."; metadata := ∅ |}.

End insight_engine.

(** ** [uavi_humor.py] *)

Module uavi_humor.

(** A Python number: the field [compression_ratio] of a [HumorMetric]
    is the quotient, a float, on one branch of the conditional
    expression and the int literal [0] on the other. *)
Inductive number : Type :=
  | PyFloat (x : float)
  | PyInt (n : Z).

Record HumorMetric : Type := {
  surface_distance : float;
  tunnel_distance : float;
  compression_ratio : number
}.

(** [set(node.metadata.get('tags', []))] *)
Definition tag_set (node : ThoughtNode) : gset string :=
  list_to_set (default [] (metadata node !! "tags"%string)).

Definition _simulate_semantic_distance (node_a node_b : ThoughtNode)
  : M GraphKernel float :=
  let tags_a := tag_set node_a in
  let tags_b := tag_set node_b in
  let intersection := Z.of_nat (size (tags_a ∩ tags_b)) in
  if 0 <? intersection then lift (float_truediv_int float_1 intersection)
  else ret float_10.

Definition measure_humor_potential (setup punchline : ThoughtNode)
  : M GraphKernel HumorMetric :=
  (let* surface_dist := _simulate_semantic_distance setup punchline in
   let tunnel_dist := float_1 in
   let* ratio :=
     if float_gt_int tunnel_dist 0
     then let* q := lift (float_truediv surface_dist tunnel_dist) in ret (PyFloat q)
     else ret (PyInt 0) in
   ret {| surface_distance := surface_dist;
          tunnel_distance := tunnel_dist;
          compression_ratio := ratio |})%py.

(** The two nodes of [demonstrate_compression_tunnel]. *)
Definition setup : ThoughtNode :=
  {| id := "setup"; node_type := PREMISE;
     content := "I asked the librarian for books on paranoia.";
     metadata := {[ "tags"%string := ["library"; "books"; "information"]%string ]} |}.

Definition punchline : ThoughtNode :=
  {| id := "punchline"; node_type := CLAIM;
     content := "She whispered, 'They're right behind you.'";
     metadata := {[ "tags"%string := ["conspiracy"; "fear"; "whisper"]%string ]} |}.

End uavi_humor.

Import insight_engine.

(** ** Auxiliary definitions *)

(** The event [calculate_connection_capacity] builds from a distance and a
    ratio. *)
Definition event_of (a b : ThoughtNode) (d : Z) (ratio : float) : InsightEvent :=
  {| source_id := id a;
     target_id := id b;
     surface_distance := d;
     tunnel_distance := 1;
     compression_ratio := ratio;
     magnitude := classify_magnitude ratio |}.

(** The number of tags two nodes share, [len(tags_a.intersection(tags_b))]. *)
Definition shared_tags (a b : ThoughtNode) : Z :=
  Z.of_nat (size (uavi_humor.tag_set a ∩ uavi_humor.tag_set b)).

(** The list [node.metadata.get('tags', [])]. *)
Definition tags_of (n : ThoughtNode) : list string :=
  default [] (metadata n !! "tags"%string).

(** The string of [n] digits ['1'], ['1' * n]. *)
Definition ones (n : nat) : string :=
  string_of_list_ascii (List.repeat "1"%char n).

(** The largest length of a Python container, [sys.maxsize]. *)
Definition sys_maxsize : Z := 2 ^ 63 - 1.

(** The double [9.0]. *)
Definition float_9 : float := S754_finite false 5066549580791808 (-49).

(** ** Scenarios *)

Definition node (name : string) (tags : list string) : ThoughtNode :=
  {| id := name; node_type := PREMISE; content := ""%string;
     metadata := {[ "tags"%string := tags ]} |}.

Definition empty_graph : GraphKernel := {| nodes := ∅; edges := [] |}.

(** The path graph [n1 -> n2 -> ... -> n10]. *)
Definition path_names : list string :=
  ["n1"; "n2"; "n3"; "n4"; "n5"; "n6"; "n7"; "n8"; "n9"; "n10"]%string.

Definition path_graph : GraphKernel :=
  {| nodes := list_to_map (List.map (fun name => (name, node name [])) path_names);
     edges := List.combine path_names (List.tail path_names) |}.

(** Two nodes whose identifiers are [2^53 + 1] apart. *)
Definition n0 : ThoughtNode := node "n0" [].
Definition n9007199254740993 : ThoughtNode := node "n9007199254740993" [].

(** Two nodes with two tags in common. *)
Definition cat_joke : ThoughtNode := node "setup" ["cat"; "pet"; "home"].
Definition cat_fact : ThoughtNode := node "punchline" ["pet"; "cat"; "fur"].

(** A kernel whose object is the number of resonance checks made so far:
    the distance comes from a table, the check answers [answer] and counts
    the call. *)
Definition CountingKernel (table : string -> string -> Z) (answer : bool)
  : Kernel nat :=
  {| _get_graph_distance := fun start end_ => ret (table start end_);
     _check_resonance := fun _ _ => fun calls => (Ok answer, S calls) |}.

(** * Binary64 arithmetic

    Facts about the rounding of [SpecFloat], at [prec = 53] and
    [emax = 1024]: the results of a division are valid doubles, a
    division by [1.0] is the identity, and the conversion of an integer
    is exact up to [2^53]. *)

Module binary64.

Lemma fexp_eq e : fexp prec emax e = Z.max (e - 53) (-1074).
Proof. reflexivity. Qed.

Ltac fexp_lia := rewrite ?fexp_eq in *; lia.

Lemma digits2_pos_size p : digits2_pos p = Pos.size p.
Proof. induction p; simpl; congruence. Qed.

Lemma Zdigits2_log2 m : 0 < m -> Zdigits2 m = Z.log2 m + 1.
Proof.
  destruct m as [|p|p]; try lia. intros _. simpl.
  rewrite digits2_pos_size. destruct p; simpl; lia.
Qed.

Lemma Zdigits2_nonneg m : 0 <= Zdigits2 m.
Proof. destruct m; simpl; lia. Qed.

Lemma Zdigits2_bounds m : 0 < m -> 2 ^ (Zdigits2 m - 1) <= m < 2 ^ Zdigits2 m.
Proof.
  intros Hm. rewrite (Zdigits2_log2 m Hm).
  replace (Z.log2 m + 1 - 1) with (Z.log2 m) by lia.
  replace (Z.log2 m + 1) with (Z.succ (Z.log2 m)) by lia.
  apply Z.log2_spec; assumption.
Qed.

Lemma Zdigits2_mono a b : 0 <= a <= b -> Zdigits2 a <= Zdigits2 b.
Proof.
  intros [Ha Hab]. destruct (Z.eq_dec a 0) as [->|Hne].
  - apply Zdigits2_nonneg.
  - rewrite !Zdigits2_log2 by lia. apply Z.add_le_mono_r, Z.log2_le_mono. lia.
Qed.

Lemma Zdigits2_unique m d : 2 ^ (d - 1) <= m < 2 ^ d -> 0 < d -> Zdigits2 m = d.
Proof.
  intros Hb Hd.
  assert (0 < m) by (assert (0 < 2 ^ (d - 1)) by (apply Z.pow_pos_nonneg; lia); lia).
  rewrite Zdigits2_log2 by assumption.
  rewrite (Z.log2_unique m (d - 1)); [lia | lia |].
  replace (Z.succ (d - 1)) with d by lia. assumption.
Qed.

Lemma Zdigits2_div_pow2 m n :
  0 <= n -> 0 < m / 2 ^ n -> Zdigits2 (m / 2 ^ n) = Zdigits2 m - n.
Proof.
  intros Hn Hq.
  assert (Hp : 0 < 2 ^ n) by (apply Z.pow_pos_nonneg; lia).
  assert (Hm : 0 < m).
  { destruct (Z.lt_trichotomy m 0) as [Hneg|[->|Hpos]]; [| |assumption].
    - assert (m / 2 ^ n < 0) by (apply Z.div_lt_upper_bound; lia). lia.
    - rewrite Z.div_0_l in Hq by lia. lia. }
  rewrite !Zdigits2_log2 by assumption.
  rewrite <- Z.shiftr_div_pow2 by assumption.
  rewrite Z.log2_shiftr by assumption.
  assert (n <= Z.log2 m).
  { apply Z.log2_le_pow2; [assumption|].
    destruct (Z.le_gt_cases (2 ^ n) m) as [|Hlt]; [assumption|].
    rewrite Z.div_small in Hq by lia. lia. }
  lia.
Qed.

Lemma iter_pos_nat {A : Type} (f : A -> A) p x :
  SpecFloat.iter_pos f p x = Nat.iter (Pos.to_nat p) f x.
Proof.
  revert x. induction p as [p IH|p IH|]; intros x; cbn [SpecFloat.iter_pos].
  - rewrite !IH, Pos2Nat.inj_xI.
    replace (S (2 * Pos.to_nat p))%nat with (Pos.to_nat p + S (Pos.to_nat p))%nat by lia.
    rewrite Nat.iter_add, Nat.iter_succ_r. reflexivity.
  - rewrite !IH, Pos2Nat.inj_xO.
    replace (2 * Pos.to_nat p)%nat with (Pos.to_nat p + Pos.to_nat p)%nat by lia.
    rewrite Nat.iter_add. reflexivity.
  - reflexivity.
Qed.

Lemma shr_m_shr_1 mrs : 0 <= shr_m mrs -> shr_m (shr_1 mrs) = shr_m mrs / 2.
Proof.
  destruct mrs as [m r s]. simpl. intros Hm.
  rewrite <- Z.div2_div.
  destruct m as [|[p|p|]|p]; simpl; try reflexivity; lia.
Qed.

Lemma shr_m_iter n mrs :
  0 <= shr_m mrs -> shr_m (Nat.iter n shr_1 mrs) = shr_m mrs / 2 ^ Z.of_nat n.
Proof.
  intros Hm. induction n as [|n IH].
  - simpl. rewrite Z.div_1_r. reflexivity.
  - rewrite Nat2Z.inj_succ, Z.pow_succ_r by lia. rewrite Nat.iter_succ.
    rewrite shr_m_shr_1.
    + rewrite IH, Z.div_div by (try apply Z.pow_pos_nonneg; lia).
      f_equal. lia.
    + rewrite IH. apply Z.div_pos; [assumption|apply Z.pow_pos_nonneg; lia].
Qed.

Lemma shr_spec mrs e n :
  0 <= shr_m mrs -> 0 <= n ->
  exists mrs', shr mrs e n = (mrs', e + n) /\ shr_m mrs' = shr_m mrs / 2 ^ n.
Proof.
  intros Hm Hn. destruct n as [|p|p]; try lia.
  - exists mrs. simpl. rewrite Z.add_0_r, Z.div_1_r. auto.
  - exists (SpecFloat.iter_pos shr_1 p mrs). split; [reflexivity|].
    rewrite iter_pos_nat, shr_m_iter by assumption.
    rewrite positive_nat_Z. reflexivity.
Qed.

Lemma shr_m_record_of_loc m l : shr_m (shr_record_of_loc m l) = m.
Proof. destruct l as [|[]]; reflexivity. Qed.

Lemma shr_fexp_spec m e l :
  0 <= m -> e <= fexp prec emax (Zdigits2 m + e) ->
  exists mrs,
    shr_fexp prec emax m e l = (mrs, fexp prec emax (Zdigits2 m + e)) /\
    shr_m mrs = m / 2 ^ (fexp prec emax (Zdigits2 m + e) - e).
Proof.
  intros Hm He. unfold shr_fexp.
  destruct (shr_spec (shr_record_of_loc m l) e (fexp prec emax (Zdigits2 m + e) - e))
    as (mrs & E & Hs).
  - rewrite shr_m_record_of_loc. assumption.
  - lia.
  - exists mrs. rewrite E, Hs, shr_m_record_of_loc. split; [f_equal; lia|reflexivity].
Qed.

Lemma round_nearest_even_bounds m l :
  m <= round_nearest_even m l <= m + 1.
Proof.
  destruct l as [|[]]; simpl; try lia. destruct (Z.even m); lia.
Qed.

(** The shape of every result of [binary_round_aux]. *)
Lemma binary_round_aux_spec sx mx ex lx :
  0 <= mx -> ex <= fexp prec emax (Zdigits2 mx + ex) ->
  let e1 := fexp prec emax (Zdigits2 mx + ex) in
  let r := binary_round_aux prec emax sx mx ex lx in
  (r = S754_zero sx /\ mx / 2 ^ (e1 - ex) = 0) \/
  (r = S754_infinity sx /\ emax - prec < e1 + 1) \/
  (exists m e, r = S754_finite sx m e /\ bounded prec emax m e = true /\
               e1 <= e <= e1 + 1 /\
               mx / 2 ^ (e1 - ex) <= Z.pos m * 2 ^ (e - e1) <= mx / 2 ^ (e1 - ex) + 1).
Proof.
  intros Hm He e1 r. subst r. unfold binary_round_aux.
  destruct (shr_fexp_spec mx ex lx Hm He) as (mrs1 & E1 & M1).
  fold e1 in E1, M1, He. rewrite E1.
  assert (He1 : e1 = fexp prec emax (Zdigits2 mx + ex)) by reflexivity.
  clearbody e1.
  set (m1 := shr_m mrs1) in *. clearbody m1.
  assert (Hp : 0 < 2 ^ (e1 - ex)) by (apply Z.pow_pos_nonneg; lia).
  assert (Hm1 : 0 <= m1) by (rewrite M1; apply Z.div_pos; lia).
  pose proof (round_nearest_even_bounds m1 (loc_of_shr_record mrs1)) as Hr.
  set (m2 := round_nearest_even m1 (loc_of_shr_record mrs1)) in *.
  clearbody m2.
  (* the exponent after the first shift is the canonical one of [m1] *)
  assert (Hc1 : (m1 = 0 /\ e1 = -1074) \/ (0 < m1 /\ fexp prec emax (Zdigits2 m1 + e1) = e1)).
  { destruct (Z.eq_dec m1 0) as [Hz|Hnz].
    - left. split; [assumption|].
      destruct (Z.eq_dec mx 0) as [->|Hx].
      + simpl Zdigits2 in *. fexp_lia.
      + assert (Hlt : mx < 2 ^ (e1 - ex)).
        { rewrite M1 in Hz. apply Z.div_small_iff in Hz; lia. }
        pose proof (Zdigits2_bounds mx ltac:(lia)) as [Hlo _].
        assert (Zdigits2 mx - 1 < e1 - ex).
        { apply (Z.pow_lt_mono_r_iff 2); lia. }
        fexp_lia.
    - right. split; [lia|].
      assert (Hd : Zdigits2 m1 = Zdigits2 mx - (e1 - ex)).
      { rewrite M1. apply Zdigits2_div_pow2; [lia|]. rewrite <- M1. lia. }
      rewrite Hd. replace (Zdigits2 mx - (e1 - ex) + e1) with (Zdigits2 mx + ex) by lia.
      symmetry; assumption. }
  assert (Hd2 : Zdigits2 m1 <= Zdigits2 m2 <= Zdigits2 m1 + 1).
  { split; [apply Zdigits2_mono; lia|].
    destruct (Z.eq_dec m1 0) as [Hz|Hnz].
    - rewrite Hz in *. simpl (Zdigits2 0).
      assert (Hm2 : m2 = 0 \/ m2 = 1) by lia. destruct Hm2 as [->| ->]; simpl; lia.
    - transitivity (Zdigits2 (2 * m1)); [apply Zdigits2_mono; lia|].
      destruct m1 as [|p|p]; try lia.
      change (2 * Z.pos p) with (Z.pos p~0). cbn [Zdigits2 digits2_pos].
      rewrite Pos2Z.inj_succ. lia. }
  assert (He2 : e1 <= fexp prec emax (Zdigits2 m2 + e1)).
  { destruct Hc1 as [[_ ?]|[_ ?]]; fexp_lia. }
  destruct (shr_fexp_spec m2 e1 loc_Exact ltac:(lia) He2) as (mrs2 & E2 & M2).
  rewrite E2.
  remember (fexp prec emax (Zdigits2 m2 + e1)) as e2 eqn:He2'.
  assert (Hp2 : 0 < 2 ^ (e2 - e1)) by (apply Z.pow_pos_nonneg; lia).
  assert (Hbe : e2 <= e1 + 1).
  { destruct Hc1 as [[Hz ?]|[_ ?]];
      [rewrite Hz in Hd2; simpl Zdigits2 in Hd2|]; fexp_lia. }
  destruct (shr_m mrs2) as [|m|m] eqn:Em.
  - (* zero *)
    left. split; [reflexivity|].
    destruct (Z.eq_dec m1 0) as [Hz|Hnz]; [rewrite <- M1; assumption|exfalso].
    assert (He21 : e2 = e1 \/ e2 = e1 + 1) by lia.
    symmetry in M2. apply Z.div_small_iff in M2; [|lia].
    destruct He21 as [Heq|Heq]; rewrite Heq in M2.
    + replace (e1 - e1) with 0 in M2 by lia. simpl in M2. lia.
    + replace (e1 + 1 - e1) with 1 in M2 by lia.
      assert (m2 = 1) by (simpl in M2; lia).
      assert (m1 = 1) by lia. subst m1 m2.
      destruct Hc1 as [[? _]|[_ Hc]]; [lia|].
      simpl Zdigits2 in *. fexp_lia.
  - destruct (e2 <=? emax - prec) eqn:Ele.
    + right. right. exists m, e2. split; [reflexivity|].
      split; [|split; [lia|]].
      * unfold bounded. rewrite Ele, andb_true_r. unfold canonical_mantissa.
        apply Z.eqb_eq.
        change (Z.pos (digits2_pos m)) with (Zdigits2 (Z.pos m)).
        rewrite M2.
        rewrite Zdigits2_div_pow2; [|lia|rewrite <- M2; lia].
        replace (Zdigits2 m2 - (e2 - e1) + e2) with (Zdigits2 m2 + e1) by lia.
        congruence.
      * (* the rounded mantissa is [m1] or [m1 + 1], at the scale of [e1] *)
        rewrite <- M1.
        assert (He21 : e2 = e1 \/ e2 = e1 + 1) by lia.
        destruct He21 as [Heq|Heq]; rewrite Heq in *.
        -- replace (e1 - e1) with 0 in * by lia.
           rewrite Z.pow_0_r, Z.div_1_r in M2. rewrite Z.pow_0_r. lia.
        -- replace (e1 + 1 - e1) with 1 in * by lia.
           destruct Hc1 as [[Hz He1m]|[Hpos Hc]].
           ++ exfalso. rewrite Hz in Hd2. simpl Zdigits2 in Hd2. fexp_lia.
           ++ assert (Hdm2 : Zdigits2 m2 = 54) by fexp_lia.
              assert (Hdm1 : Zdigits2 m1 = 53) by fexp_lia.
              pose proof (Zdigits2_bounds m1 Hpos) as [_ Hu1].
              pose proof (Zdigits2_bounds m2 ltac:(lia)) as [Hl2 _].
              rewrite Hdm1 in Hu1. rewrite Hdm2 in Hl2.
              assert (Hm2 : m2 = 2 ^ 53) by (change (54 - 1) with 53 in Hl2; lia).
              rewrite Hm2 in M2. change (2 ^ 53 / 2 ^ 1) with (2 ^ 52) in M2.
              rewrite M2. change (2 ^ 52 * 2 ^ 1) with (2 ^ 53). lia.
    + right. left. split; [reflexivity|]. apply Z.leb_gt in Ele. lia.
  - exfalso. assert (0 <= m2 / 2 ^ (e2 - e1)) by (apply Z.div_pos; lia). lia.
Qed.

(** The definitions of [SpecFloat] are stated with the integer operations of
    the core library; [zdef] restates a goal with those of [ZArith]. *)
Ltac zdef :=
  change IntDef.Z.add with Z.add in *;
  change IntDef.Z.sub with Z.sub in *;
  change IntDef.Z.mul with Z.mul in *;
  change IntDef.Z.opp with Z.opp in *;
  change IntDef.Z.max with Z.max in *;
  change IntDef.Z.min with Z.min in *;
  change IntDef.Z.leb with Z.leb in *;
  change IntDef.Z.eqb with Z.eqb in *;
  change IntDef.Z.compare with Z.compare in *;
  change IntDef.Z.even with Z.even in *;
  change IntDef.Z.div_eucl with Z.div_eucl in *;
  change IntDef.Z.shiftl with Z.shiftl in *.

Lemma SFdiv_core_binary_eq m1 e1 m2 e2 :
  0 <= m1 ->
  let e' := Z.min (fexp prec emax (Zdigits2 m1 + e1 - (Zdigits2 m2 + e2))) (e1 - e2) in
  let s := e1 - e2 - e' in
  SFdiv_core_binary prec emax m1 e1 m2 e2 =
    (m1 * 2 ^ s / m2, e', new_location m2 ((m1 * 2 ^ s) mod m2)).
Proof.
  intros Hm e' s. unfold SFdiv_core_binary. zdef. fold e'. fold s.
  assert (Hs : 0 <= s) by (subst s e'; lia).
  assert (Hm' : match s with Z.pos _ => Z.shiftl m1 s | 0 => m1 | Z.neg _ => 0 end
                = m1 * 2 ^ s).
  { clearbody s. destruct s as [|p|p]; try lia.
    rewrite Z.shiftl_mul_pow2 by lia. reflexivity. }
  rewrite Hm'. unfold Z.div, Z.modulo.
  destruct (Z.div_eucl (m1 * 2 ^ s) m2) as [q r]. reflexivity.
Qed.

Lemma Zdigits2_pow2 t : 0 <= t -> Zdigits2 (2 ^ t) = t + 1.
Proof.
  intros Ht. apply Zdigits2_unique; [|lia].
  replace (t + 1 - 1) with t by lia. split; [lia|].
  apply Z.pow_lt_mono_r; lia.
Qed.

Lemma valid_binary_round_aux sx mx ex lx :
  0 <= mx -> ex <= fexp prec emax (Zdigits2 mx + ex) ->
  valid_binary prec emax (binary_round_aux prec emax sx mx ex lx) = true.
Proof.
  intros Hm He.
  destruct (binary_round_aux_spec sx mx ex lx Hm He)
    as [[-> _]|[[-> _]|(m & e & -> & Hb & _)]]; simpl; auto.
Qed.

(** The quotient and exponent the division hands to the rounding satisfy
    its precondition. *)
Lemma SFdiv_core_binary_ok m1 e1 m2 e2 :
  0 < m1 -> 0 < m2 ->
  let e' := Z.min (fexp prec emax (Zdigits2 m1 + e1 - (Zdigits2 m2 + e2))) (e1 - e2) in
  let q := m1 * 2 ^ (e1 - e2 - e') / m2 in
  0 <= q /\ e' <= fexp prec emax (Zdigits2 q + e').
Proof.
  intros H1 H2 e' q.
  assert (Hs : 0 <= e1 - e2 - e') by (subst e'; lia).
  assert (Hp : 0 < 2 ^ (e1 - e2 - e')) by (apply Z.pow_pos_nonneg; lia).
  assert (Hq : 0 <= q) by (subst q; apply Z.div_pos; nia).
  split; [assumption|].
  pose proof (Zdigits2_bounds m1 H1) as [Hl1 _].
  pose proof (Zdigits2_bounds m2 H2) as [_ Hu2].
  pose proof (Zdigits2_nonneg q) as Hdq.
  assert (Hd1 : 1 <= Zdigits2 m1) by (rewrite Zdigits2_log2 by lia; pose proof (Z.log2_nonneg m1); lia).
  assert (Hd2 : 1 <= Zdigits2 m2) by (rewrite Zdigits2_log2 by lia; pose proof (Z.log2_nonneg m2); lia).
  set (t := Zdigits2 m1 + (e1 - e2 - e') - Zdigits2 m2 - 1).
  destruct (Z.le_gt_cases 0 t) as [Ht|Ht].
  - assert (Hqt : 2 ^ t <= q).
    { subst q. apply Z.div_le_lower_bound; [lia|].
      assert (2 ^ t * 2 ^ Zdigits2 m2 = 2 ^ (Zdigits2 m1 - 1) * 2 ^ (e1 - e2 - e')).
      { rewrite <- !Z.pow_add_r by lia. f_equal. subst t. lia. }
      assert (0 < 2 ^ t) by (apply Z.pow_pos_nonneg; lia).
      nia. }
    assert (t + 1 <= Zdigits2 q).
    { rewrite <- Zdigits2_pow2 by assumption. apply Zdigits2_mono.
      split; [apply Z.pow_nonneg; lia|assumption]. }
    subst t e'. fexp_lia.
  - subst t e'. fexp_lia.
Qed.

(** The quotient of two finite numbers is a zero, an infinity or a valid
    finite number; it is not a NaN. *)
Lemma SFdiv_finite_cases sx mx ex sy my ey :
  let r := SFdiv prec emax (S754_finite sx mx ex) (S754_finite sy my ey) in
  r = S754_zero (xorb sx sy) \/ r = S754_infinity (xorb sx sy) \/
  exists m e, r = S754_finite (xorb sx sy) m e /\ bounded prec emax m e = true.
Proof.
  intros r. subst r. unfold SFdiv.
  rewrite (SFdiv_core_binary_eq (Z.pos mx) ex (Z.pos my) ey) by lia.
  destruct (SFdiv_core_binary_ok (Z.pos mx) ex (Z.pos my) ey) as [Hq He]; try lia.
  match goal with
  | |- context [binary_round_aux _ _ ?s ?q ?e ?l] =>
      destruct (binary_round_aux_spec s q e l Hq He)
        as [[-> _] | [[-> _] | (m' & e' & -> & Hb & _)]]
  end; [left | right; left | right; right; exists m', e']; auto.
Qed.

Lemma valid_SFdiv x y : valid_binary prec emax (SFdiv prec emax x y) = true.
Proof.
  destruct x as [sx|sx| |sx mx ex], y as [sy|sy| |sy my ey]; try reflexivity.
  destruct (SFdiv_finite_cases sx mx ex sy my ey) as [->|[->|(m & e & -> & Hb)]];
    [reflexivity|reflexivity|exact Hb].
Qed.

Lemma canonical_mantissa_eq m e :
  canonical_mantissa prec emax m e = true <->
  fexp prec emax (Zdigits2 (Z.pos m) + e) = e.
Proof. unfold canonical_mantissa. zdef. apply Z.eqb_eq. Qed.

Lemma bounded_eq m e :
  bounded prec emax m e = true <->
  fexp prec emax (Zdigits2 (Z.pos m) + e) = e /\ e <= 971.
Proof.
  unfold bounded. rewrite andb_true_iff, canonical_mantissa_eq. zdef.
  rewrite Z.leb_le. reflexivity.
Qed.

(** Rounding a canonical mantissa with nothing to round leaves it. *)
Lemma binary_round_aux_canonical sx m e :
  bounded prec emax m e = true ->
  binary_round_aux prec emax sx (Z.pos m) e loc_Exact = S754_finite sx m e.
Proof.
  intros Hb. apply bounded_eq in Hb as [Hc He].
  unfold binary_round_aux, shr_fexp. zdef.
  cbn [shr_record_of_loc]. rewrite Hc, Z.sub_diag. cbn [shr shr_m loc_of_shr_record round_nearest_even].
  rewrite Hc, Z.sub_diag. cbn [shr shr_m].
  destruct (Z.leb_spec e (emax - prec)) as [_|Hgt]; [reflexivity|].
  unfold emax, prec in Hgt. lia.
Qed.

(** The same with one more bit, a zero, which the rounding drops. *)
Lemma binary_round_aux_canonical_double sx m e :
  bounded prec emax m e = true ->
  binary_round_aux prec emax sx (Z.pos m~0) (e - 1) loc_Exact = S754_finite sx m e.
Proof.
  intros Hb. pose proof Hb as Hb'. apply bounded_eq in Hb as [Hc He].
  unfold binary_round_aux at 1. unfold shr_fexp at 1. zdef.
  assert (Hd : Zdigits2 (Z.pos m~0) + (e - 1) = Zdigits2 (Z.pos m) + e).
  { cbn [Zdigits2 digits2_pos]. rewrite Pos2Z.inj_succ. lia. }
  rewrite Hd, Hc. replace (e - (e - 1)) with 1 by lia.
  cbn [shr_record_of_loc shr SpecFloat.iter_pos shr_1 shr_m loc_of_shr_record round_nearest_even orb].
  replace (e - 1 + 1) with e by lia.
  unfold shr_fexp. zdef. cbn [shr_record_of_loc].
  rewrite Hc, Z.sub_diag. cbn [shr shr_m].
  destruct (Z.leb_spec e (emax - prec)) as [_|Hgt]; [reflexivity|].
  unfold emax, prec in Hgt. lia.
Qed.

(** Dividing by [1.0] changes nothing. *)
Lemma SFdiv_1 x :
  valid_binary prec emax x = true -> SFdiv prec emax x float_1 = x.
Proof.
  destruct x as [sx|sx| |sx mx ex]; intros Hv; simpl in Hv;
    try (simpl; rewrite ?xorb_false_r; reflexivity).
  unfold float_1, SFdiv.
  rewrite (SFdiv_core_binary_eq (Z.pos mx) ex 4503599627370496 (-52)) by lia.
  rewrite xorb_false_r.
  pose proof Hv as Hb. apply bounded_eq in Hb as [Hc He].
  change (Zdigits2 4503599627370496) with 53.
  set (e' := Z.min _ _).
  assert (He' : (e' = ex /\ ex - -52 - e' = 52) \/ (e' = ex - 1 /\ ex - -52 - e' = 53)).
  { subst e'. rewrite fexp_eq in *. lia. }
  change 4503599627370496 with (2 ^ 52).
  destruct He' as [[-> ->]|[-> ->]].
  - rewrite Z.div_mul, Z.mod_mul by lia.
    change (new_location (2 ^ 52) 0) with loc_Exact.
    apply binary_round_aux_canonical. assumption.
  - replace (Z.pos mx * 2 ^ 53) with (Z.pos mx~0 * 2 ^ 52) by lia.
    rewrite Z.div_mul, Z.mod_mul by lia.
    change (new_location (2 ^ 52) 0) with loc_Exact.
    apply binary_round_aux_canonical_double. assumption.
Qed.


(** ** Values *)

Lemma Qpow2_nonneg_exp k : 0 <= k -> (2 ^ k)%Q == inject_Z (2 ^ k).
Proof. intros Hk. rewrite Zpower_Qpower by assumption. reflexivity. Qed.

Lemma Qpow2_neg_exp k : 0 <= k -> ((2 ^ (- k))%Q * inject_Z (2 ^ k) == 1)%Q.
Proof.
  intros Hk. rewrite Qpower_opp, <- Qpow2_nonneg_exp by assumption.
  rewrite Qmult_comm. apply Qmult_inv_r.
  rewrite Qpow2_nonneg_exp by assumption.
  assert (0 < 2 ^ k)%Z by (apply Z.pow_pos_nonneg; lia).
  intros Heq. unfold Qeq in Heq. cbn [Qnum Qden inject_Z] in Heq. lia.
Qed.

(** A mantissa [d * 2^k] with exponent [-k] stands for [d]. *)
Lemma SF2Q_scaled m d k :
  0 <= k -> Z.pos m = d * 2 ^ k ->
  (SF2Q (S754_finite false m (- k)) == inject_Z d)%Q.
Proof.
  intros Hk Hm. unfold SF2Q. rewrite Hm, inject_Z_mult.
  rewrite <- Qmult_assoc, (Qmult_comm (inject_Z (2 ^ k))), Qpow2_neg_exp by assumption.
  apply Qmult_1_r.
Qed.

Lemma SF2Q_nonneg_exp m e :
  0 <= e -> (SF2Q (S754_finite false m e) == inject_Z (Z.pos m * 2 ^ e))%Q.
Proof.
  intros He. unfold SF2Q. rewrite inject_Z_mult, Qpow2_nonneg_exp by assumption.
  reflexivity.
Qed.

(** ** [d / 1] on ints *)

Lemma int_truediv_1_round d :
  0 < d ->
  let e' := Z.min (fexp prec emax (Zdigits2 d - 1)) 0 in
  int_truediv d 1 =
    match binary_round_aux prec emax false (d * 2 ^ (- e')) e' loc_Exact with
    | S754_infinity _ => Raise OverflowError
    | x => Ok x
    end.
Proof.
  intros Hd e'. unfold int_truediv.
  change (1 =? 0) with false. cbv iota.
  assert (Hneg : (d <? 0) = false) by (apply Z.ltb_ge; lia).
  rewrite Hneg. change (xorb false (1 <? 0)) with false.
  rewrite (Z.abs_eq d) by lia. change (Z.abs 1) with 1.
  rewrite (SFdiv_core_binary_eq d 0 1 0) by lia.
  change (Zdigits2 1 + 0) with 1. rewrite Z.add_0_r.
  change (0 - 0) with 0. fold e'.
  rewrite Z.div_1_r, Z.mod_1_r.
  change (new_location 1 0) with loc_Exact.
  replace (0 - e') with (- e') by lia. reflexivity.
Qed.

Lemma Zdigits2_mul_pow2 d k :
  0 < d -> 0 <= k -> Zdigits2 (d * 2 ^ k) = Zdigits2 d + k.
Proof.
  intros Hd Hk.
  assert (0 < 2 ^ k) by (apply Z.pow_pos_nonneg; lia).
  rewrite !Zdigits2_log2 by nia.
  rewrite Z.log2_mul_pow2 by lia. lia.
Qed.

Lemma Zdigits2_lt_pow2 d n : 0 < d -> 0 <= n -> d < 2 ^ n -> Zdigits2 d <= n.
Proof.
  intros Hd Hn Hlt. rewrite Zdigits2_log2 by assumption.
  assert (Z.log2 d < n) by (apply Z.log2_lt_pow2; assumption). lia.
Qed.

Lemma Zdigits2_ge_pow2 d n : 0 <= n -> 2 ^ n <= d -> n + 1 <= Zdigits2 d.
Proof.
  intros Hn Hle.
  assert (0 < 2 ^ n) by (apply Z.pow_pos_nonneg; lia).
  rewrite Zdigits2_log2 by lia.
  assert (n <= Z.log2 d) by (apply Z.log2_le_pow2; lia). lia.
Qed.

Lemma Zdigits2_pos d : 0 < d -> 1 <= Zdigits2 d.
Proof. intros Hd. apply (Zdigits2_ge_pow2 d 0); simpl; lia. Qed.

(** Below [2^53] the quotient is the integer itself. *)
Lemma int_truediv_1_small d :
  1 <= d < 2 ^ 53 ->
  exists m k,
    int_truediv d 1 = Ok (S754_finite false m (- k)) /\
    bounded prec emax m (- k) = true /\ 0 <= k /\ Z.pos m = d * 2 ^ k.
Proof.
  intros [Hd1 Hd2].
  pose proof (Zdigits2_pos d ltac:(lia)) as HD1.
  pose proof (Zdigits2_lt_pow2 d 53 ltac:(lia) ltac:(lia) Hd2) as HD2.
  set (D := Zdigits2 d) in *.
  assert (Hp : 0 < d * 2 ^ (53 - D)).
  { assert (0 < 2 ^ (53 - D)) by (apply Z.pow_pos_nonneg; lia). nia. }
  exists (Z.to_pos (d * 2 ^ (53 - D))), (53 - D).
  assert (Hm : Z.pos (Z.to_pos (d * 2 ^ (53 - D))) = d * 2 ^ (53 - D))
    by (apply Z2Pos.id; assumption).
  assert (Hb : bounded prec emax (Z.to_pos (d * 2 ^ (53 - D))) (- (53 - D)) = true).
  { apply bounded_eq. rewrite Hm, Zdigits2_mul_pow2 by lia. fold D. fexp_lia. }
  split; [|split; [assumption|split; [lia|assumption]]].
  rewrite int_truediv_1_round by lia. fold D.
  assert (He' : Z.min (fexp prec emax (D - 1)) 0 = - (53 - D) - 1) by fexp_lia.
  rewrite He'.
  assert (Hq : d * 2 ^ (- (- (53 - D) - 1)) = Z.pos (Z.to_pos (d * 2 ^ (53 - D)))~0).
  { rewrite (Pos2Z.inj_xO (Z.to_pos (d * 2 ^ (53 - D)))), Hm.
    replace (- (- (53 - D) - 1)) with (Z.succ (53 - D)) by lia.
    rewrite Z.pow_succ_r by lia. lia. }
  rewrite Hq, binary_round_aux_canonical_double by assumption. reflexivity.
Qed.

(** From [2^53] on the quotient is rounded, and stays at [2^53] or above. *)
Lemma int_truediv_1_large d :
  2 ^ 53 <= d ->
  int_truediv d 1 = Raise OverflowError \/
  exists m e,
    int_truediv d 1 = Ok (S754_finite false m e) /\
    bounded prec emax m e = true /\ 1 <= e.
Proof.
  intros Hd.
  pose proof (Zdigits2_ge_pow2 d 53 ltac:(lia) Hd) as HD.
  rewrite int_truediv_1_round by lia.
  assert (He' : Z.min (fexp prec emax (Zdigits2 d - 1)) 0 = 0) by fexp_lia.
  rewrite He'. change (2 ^ (- 0)) with 1. rewrite Z.mul_1_r.
  assert (Hpre : 0 <= fexp prec emax (Zdigits2 d + 0)) by fexp_lia.
  destruct (binary_round_aux_spec false d 0 loc_Exact ltac:(lia) Hpre)
    as [[_ Hz]|[[-> _]|(m & e & -> & Hb & He)]].
  - exfalso. apply Z.div_small_iff in Hz; [|apply Z.pow_nonzero; lia].
    pose proof (Zdigits2_bounds d ltac:(lia)) as [Hlo _].
    assert (2 ^ (fexp prec emax (Zdigits2 d + 0) - 0) <= 2 ^ (Zdigits2 d - 1)).
    { apply Z.pow_le_mono_r; fexp_lia. }
    lia.
  - left. reflexivity.
  - right. exists m, e. split; [reflexivity|]. split; [assumption|]. fexp_lia.
Qed.

(** ** [float(n)] *)

Lemma pos_iter_xO p d : Z.pos (Pos.iter xO p d) = Z.pos p * 2 ^ Z.pos d.
Proof.
  induction d as [|d IH] using Pos.peano_ind.
  - simpl. lia.
  - rewrite Pos.iter_succ, Pos2Z.inj_succ, Z.pow_succ_r by lia.
    rewrite (Pos2Z.inj_xO (Pos.iter xO p d)), IH. lia.
Qed.

Lemma shl_align_spec mx ex ex' :
  exists mz ez,
    shl_align mx ex ex' = (mz, ez) /\ ez = Z.min ex ex' /\
    Z.pos mz = Z.pos mx * 2 ^ (ex - ez).
Proof.
  unfold shl_align. zdef.
  destruct (ex' - ex) as [|d|d] eqn:Ed.
  - exists mx, ex. split; [reflexivity|]. split; [lia|].
    rewrite Z.sub_diag. simpl. lia.
  - exists mx, ex. split; [reflexivity|]. split; [lia|].
    rewrite Z.sub_diag. simpl. lia.
  - exists (Pos.iter xO mx d), ex'. split; [reflexivity|]. split; [lia|].
    rewrite pos_iter_xO. f_equal. f_equal. lia.
Qed.

(** A positive integer below [2^1023] converts to a finite, valid double. *)
Lemma float_of_int_finite k :
  1 <= k < 2 ^ 1023 ->
  exists m e,
    float_of_int k = Ok (S754_finite false m e) /\ bounded prec emax m e = true /\
    Zdigits2 k - 53 <= e <= Zdigits2 k - 52.
Proof.
  intros [Hk1 Hk2]. destruct k as [|p|p]; try lia.
  unfold float_of_int, binary_normalize, binary_round. zdef.
  destruct (shl_align_spec p 0 (fexp prec emax (Z.pos (digits2_pos p) + 0)))
    as (mz & ez & -> & Hez & Hmz).
  change (Z.pos (digits2_pos p)) with (Zdigits2 (Z.pos p)) in *.
  rewrite Z.add_0_r in *.
  pose proof (Zdigits2_pos (Z.pos p) ltac:(lia)) as HD1.
  pose proof (Zdigits2_lt_pow2 (Z.pos p) 1023 ltac:(lia) ltac:(lia) Hk2) as HD2.
  assert (Hdz : Zdigits2 (Z.pos mz) + ez = Zdigits2 (Z.pos p)).
  { rewrite Hmz, Zdigits2_mul_pow2 by lia. lia. }
  assert (Hpre : ez <= fexp prec emax (Zdigits2 (Z.pos mz) + ez)).
  { rewrite Hdz. lia. }
  destruct (binary_round_aux_spec false (Z.pos mz) ez loc_Exact ltac:(lia) Hpre)
    as [[_ Hz]|[[_ Hinf]|(m & e & -> & Hb & He)]].
  - exfalso. rewrite Hdz in Hz.
    apply Z.div_small_iff in Hz; [|apply Z.pow_nonzero; fexp_lia].
    pose proof (Zdigits2_bounds (Z.pos mz) ltac:(lia)) as [Hlo _].
    assert (2 ^ (fexp prec emax (Zdigits2 (Z.pos p)) - ez) <= 2 ^ (Zdigits2 (Z.pos mz) - 1)).
    { apply Z.pow_le_mono_r; fexp_lia. }
    lia.
  - exfalso. rewrite Hdz in Hinf. unfold emax, prec in Hinf. fexp_lia.
  - exists m, e. split; [reflexivity|]. split; [assumption|].
    rewrite Hdz in He. fexp_lia.
Qed.

(** A valid mantissa with a positive exponent is at least [2^52]. *)
Lemma bounded_large m e :
  bounded prec emax m e = true -> 1 <= e -> (inject_Z (2 ^ 53) <= SF2Q (S754_finite false m e))%Q.
Proof.
  intros Hb He. apply bounded_eq in Hb as [Hc _].
  assert (Hd : Zdigits2 (Z.pos m) = 53) by fexp_lia.
  pose proof (Zdigits2_bounds (Z.pos m) ltac:(lia)) as [Hlo _].
  rewrite Hd in Hlo.
  rewrite SF2Q_nonneg_exp by lia. rewrite <- Zle_Qle.
  assert (2 ^ 1 <= 2 ^ e) by (apply Z.pow_le_mono_r; lia).
  change (2 ^ 53) with (2 ^ (53 - 1) * 2 ^ 1). nia.
Qed.

(** [d / 1] and [float(d)] round the same integer, and agree. *)
Lemma int_truediv_1_float_of_int d : 0 < d -> int_truediv d 1 = float_of_int d.
Proof.
  intros Hd. destruct (Z.lt_ge_cases d (2 ^ 53)) as [Hlt|Hge].
  - destruct (int_truediv_1_small d ltac:(lia)) as (m & k & -> & Hb & Hk & Hm).
    destruct d as [|p|p]; try lia.
    unfold float_of_int, binary_normalize, binary_round. zdef.
    destruct (shl_align_spec p 0 (fexp prec emax (Z.pos (digits2_pos p) + 0)))
      as (mz & ez & -> & Hez & Hmz).
    change (Z.pos (digits2_pos p)) with (Zdigits2 (Z.pos p)) in *.
    rewrite Z.add_0_r in *.
    pose proof (Zdigits2_pos (Z.pos p) ltac:(lia)) as HD1.
    pose proof (Zdigits2_lt_pow2 (Z.pos p) 53 ltac:(lia) ltac:(lia) Hlt) as HD2.
    pose proof Hb as Hb'. apply bounded_eq in Hb' as [Hc _].
    rewrite Hm, Zdigits2_mul_pow2 in Hc by lia.
    assert (Hk' : k = 53 - Zdigits2 (Z.pos p)) by fexp_lia.
    assert (Hez' : ez = - k) by fexp_lia.
    assert (Hmm : mz = m).
    { apply Pos2Z.inj. rewrite Hmz, Hm. f_equal. f_equal. lia. }
    rewrite Hez', Hmm, binary_round_aux_canonical by assumption. reflexivity.
  - pose proof (Zdigits2_ge_pow2 d 53 ltac:(lia) Hge) as HD.
    rewrite int_truediv_1_round by lia.
    assert (He' : Z.min (fexp prec emax (Zdigits2 d - 1)) 0 = 0) by fexp_lia.
    rewrite He'. change (2 ^ (- 0)) with 1. rewrite Z.mul_1_r.
    destruct d as [|p|p]; try lia.
    unfold float_of_int, binary_normalize, binary_round, shl_align. zdef.
    change (Z.pos (digits2_pos p)) with (Zdigits2 (Z.pos p)).
    rewrite Z.add_0_r, Z.sub_0_r.
    destruct (fexp prec emax (Zdigits2 (Z.pos p))) as [|f|f] eqn:Ef;
      [reflexivity|reflexivity|].
    exfalso. rewrite fexp_eq in Ef. lia.
Qed.

Lemma float_ge_int_1_false m e :
  e <= 0 -> Z.pos m < 2 ^ (- e) -> float_ge_int (S754_finite false m e) 1 = false.
Proof.
  intros He Hm. unfold float_ge_int. cbn [float_cmp_int].
  assert (Hlt : (SF2Q (S754_finite false m e) < inject_Z 1)%Q).
  { assert (Hs : (SF2Q (S754_finite false m e) * inject_Z (2 ^ (- e))
                  == inject_Z (Z.pos m))%Q).
    { unfold SF2Q. rewrite <- Qmult_assoc.
      replace e with (- - e) at 1 by lia.
      rewrite Qpow2_neg_exp by lia. apply Qmult_1_r. }
    assert (Hp : (0 < inject_Z (2 ^ (- e)))%Q).
    { change 0%Q with (inject_Z 0). rewrite <- Zlt_Qlt.
      apply Z.pow_pos_nonneg; lia. }
    apply (Qmult_lt_r _ _ _ Hp). rewrite Hs, <- inject_Z_mult, <- Zlt_Qlt. lia. }
  destruct (Qcompare_spec (SF2Q (S754_finite false m e)) (inject_Z 1))
    as [Heq|_|Hgt]; [exfalso|reflexivity|exfalso].
  - rewrite Heq in Hlt. apply (Qlt_irrefl _ Hlt).
  - apply (Qlt_irrefl (inject_Z 1)).
    apply Qlt_trans with (SF2Q (S754_finite false m e)); assumption.
Qed.

(** The reciprocal of a double that is at least 2 is below 1. *)
Lemma SFdiv_1_by_large m e :
  bounded prec emax m e = true -> -51 <= e <= 900 ->
  float_ge_int (SFdiv prec emax float_1 (S754_finite false m e)) 1 = false.
Proof.
  intros Hb He. pose proof Hb as Hb'. apply bounded_eq in Hb' as [Hc _].
  assert (Hdm : Zdigits2 (Z.pos m) = 53) by fexp_lia.
  pose proof (Zdigits2_bounds (Z.pos m) ltac:(lia)) as [Hml Hmu].
  rewrite Hdm in Hml, Hmu. change (2 ^ (53 - 1)) with (2 ^ 52) in Hml.
  unfold float_1, SFdiv.
  rewrite (SFdiv_core_binary_eq 4503599627370496 (-52) (Z.pos m) e) by lia.
  destruct (SFdiv_core_binary_ok 4503599627370496 (-52) (Z.pos m) e)
    as [Hq Hpre]; try lia.
  change (Zdigits2 4503599627370496) with 53 in *. rewrite Hdm in *.
  assert (He' : Z.min (fexp prec emax (53 + -52 - (53 + e))) (-52 - e) = -105 - e)
    by fexp_lia.
  rewrite He' in *. replace (-52 - e - (-105 - e)) with 53 in * by lia.
  set (q := 4503599627370496 * 2 ^ 53 / Z.pos m) in *.
  assert (Hq1 : 2 ^ 52 <= q).
  { subst q. apply Z.div_le_lower_bound; [lia|].
    change (4503599627370496 * 2 ^ 53) with (2 ^ 53 * 2 ^ 52). nia. }
  assert (Hq2 : q <= 2 ^ 53).
  { subst q. apply Z.div_le_upper_bound; [lia|].
    change (4503599627370496 * 2 ^ 53) with (2 ^ 52 * 2 ^ 53). nia. }
  pose proof (Zdigits2_ge_pow2 q 52 ltac:(lia) Hq1) as Hdq1.
  pose proof (Zdigits2_lt_pow2 q 54 ltac:(lia) ltac:(lia) ltac:(lia)) as Hdq2.
  match goal with
  | |- context [binary_round_aux _ _ ?s _ _ ?l] =>
      destruct (binary_round_aux_spec s q (-105 - e) l Hq Hpre)
        as [[-> _] | [[_ Hinf] | (m' & e' & -> & _ & Hr & Hv)]]
  end.
  - reflexivity.
  - exfalso. unfold emax, prec in Hinf. fexp_lia.
  - set (e1 := fexp prec emax (Zdigits2 q + (-105 - e))) in *.
    assert (He1 : e1 = Zdigits2 q + (-105 - e) - 53) by (subst e1; fexp_lia).
    clearbody e1.
    assert (Hp1 : 0 < 2 ^ (e' - e1)) by (apply Z.pow_pos_nonneg; lia).
    apply float_ge_int_1_false; [lia|].
    apply (Z.mul_lt_mono_pos_r (2 ^ (e' - e1))); [assumption|].
    rewrite <- Z.pow_add_r by lia. replace (- e' + (e' - e1)) with (- e1) by lia.
    apply Z.le_lt_trans with (q / 2 ^ (e1 - (-105 - e)) + 1); [lia|].
    destruct (Z.eq_dec (Zdigits2 q) 53) as [Hd|Hd].
    + replace (e1 - (-105 - e)) with 0 by lia. rewrite Z.pow_0_r, Z.div_1_r.
      pose proof (Zdigits2_bounds q ltac:(lia)) as [_ Hu]. rewrite Hd in Hu.
      assert (2 ^ 54 <= 2 ^ (- e1)) by (apply Z.pow_le_mono_r; lia). lia.
    + replace (e1 - (-105 - e)) with 1 by lia.
      assert (q / 2 ^ 1 <= 2 ^ 52).
      { apply Z.div_le_upper_bound; [lia|]. change (2 ^ 1 * 2 ^ 52) with (2 ^ 53). lia. }
      assert (2 ^ 53 <= 2 ^ (- e1)) by (apply Z.pow_le_mono_r; lia). lia.
Qed.

(** From [2^1024] on, the quotient [d / 1] is beyond the largest double. *)
Lemma int_truediv_1_overflow d :
  2 ^ 1024 <= d -> int_truediv d 1 = Raise OverflowError.
Proof.
  intros Hd.
  assert (H53 : 2 ^ 53 <= 2 ^ 1024) by (apply Z.pow_le_mono_r; lia).
  pose proof (Zdigits2_ge_pow2 d 1024 ltac:(lia) Hd) as HD.
  rewrite int_truediv_1_round by lia.
  assert (He' : Z.min (fexp prec emax (Zdigits2 d - 1)) 0 = 0) by fexp_lia.
  rewrite He'. change (2 ^ (- 0)) with 1. rewrite Z.mul_1_r.
  assert (Hpre : 0 <= fexp prec emax (Zdigits2 d + 0)) by fexp_lia.
  destruct (binary_round_aux_spec false d 0 loc_Exact ltac:(lia) Hpre)
    as [[_ Hz] | [[-> _] | (m & e & _ & Hb & He & _)]].
  - exfalso. apply Z.div_small_iff in Hz; [|apply Z.pow_nonzero; lia].
    pose proof (Zdigits2_bounds d ltac:(lia)) as [Hlo _].
    assert (2 ^ (fexp prec emax (Zdigits2 d + 0) - 0) <= 2 ^ (Zdigits2 d - 1)).
    { apply Z.pow_le_mono_r; fexp_lia. }
    lia.
  - reflexivity.
  - exfalso. apply bounded_eq in Hb as [_ Hb]. fexp_lia.
Qed.

(** Below [2^1023] the quotient [d / 1] is a finite double. *)
Lemma int_truediv_1_finite d :
  1 <= d < 2 ^ 1023 ->
  exists m e,
    int_truediv d 1 = Ok (S754_finite false m e) /\ bounded prec emax m e = true.
Proof.
  intros [Hd1 Hd2]. destruct (Z.lt_ge_cases d (2 ^ 53)) as [Hlt|Hge].
  - destruct (int_truediv_1_small d ltac:(lia)) as (m & k & Hs & Hb & _).
    exists m, (- k). auto.
  - pose proof (Zdigits2_ge_pow2 d 53 ltac:(lia) Hge) as HD.
    pose proof (Zdigits2_lt_pow2 d 1023 ltac:(lia) ltac:(lia) Hd2) as HD2.
    rewrite int_truediv_1_round by lia.
    assert (He' : Z.min (fexp prec emax (Zdigits2 d - 1)) 0 = 0) by fexp_lia.
    rewrite He'. change (2 ^ (- 0)) with 1. rewrite Z.mul_1_r.
    assert (Hpre : 0 <= fexp prec emax (Zdigits2 d + 0)) by fexp_lia.
    destruct (binary_round_aux_spec false d 0 loc_Exact ltac:(lia) Hpre)
      as [[_ Hz] | [[_ Hinf] | (m & e & -> & Hb & _)]].
    + exfalso. apply Z.div_small_iff in Hz; [|apply Z.pow_nonzero; lia].
      pose proof (Zdigits2_bounds d ltac:(lia)) as [Hlo _].
      assert (2 ^ (fexp prec emax (Zdigits2 d + 0) - 0) <= 2 ^ (Zdigits2 d - 1)).
      { apply Z.pow_le_mono_r; fexp_lia. }
      lia.
    + exfalso. unfold emax, prec in Hinf. fexp_lia.
    + exists m, e. auto.
Qed.

(** *** The overflow threshold of [d / 1] *)

Lemma shr_r_shr_1 mrs : 0 <= shr_m mrs -> shr_r (shr_1 mrs) = Z.odd (shr_m mrs).
Proof.
  destruct mrs as [m r s]. simpl. intros Hm.
  destruct m as [|[p|p|]|p]; simpl; try reflexivity; lia.
Qed.

Lemma shr_r_iter n mrs :
  0 <= shr_m mrs ->
  shr_r (Nat.iter (S n) shr_1 mrs) = Z.odd (shr_m mrs / 2 ^ Z.of_nat n).
Proof.
  intros Hm. rewrite Nat.iter_succ, shr_r_shr_1.
  - rewrite shr_m_iter by assumption. reflexivity.
  - rewrite shr_m_iter by assumption.
    apply Z.div_pos; [assumption|apply Z.pow_pos_nonneg; lia].
Qed.

(** A shift by at least one place: the round bit of the result is the last
    bit shifted out. *)
Lemma shr_fexp_round_bit m e :
  0 <= m -> e < fexp prec emax (Zdigits2 m + e) ->
  exists mrs,
    shr_fexp prec emax m e loc_Exact = (mrs, fexp prec emax (Zdigits2 m + e)) /\
    shr_m mrs = m / 2 ^ (fexp prec emax (Zdigits2 m + e) - e) /\
    shr_r mrs = Z.odd (m / 2 ^ (fexp prec emax (Zdigits2 m + e) - e - 1)).
Proof.
  intros Hm He. unfold shr_fexp. zdef.
  remember (fexp prec emax (Zdigits2 m + e)) as e1 eqn:He1.
  destruct (e1 - e) as [|p|p] eqn:En; try lia.
  exists (SpecFloat.iter_pos shr_1 p (shr_record_of_loc m loc_Exact)).
  unfold shr. split; [f_equal; lia|].
  rewrite iter_pos_nat.
  assert (Hm0 : 0 <= shr_m (shr_record_of_loc m loc_Exact))
    by (rewrite shr_m_record_of_loc; assumption).
  split.
  - rewrite shr_m_iter, shr_m_record_of_loc, positive_nat_Z by assumption. reflexivity.
  - destruct (Pos.to_nat p) as [|k] eqn:Ek; [lia|].
    rewrite shr_r_iter, shr_m_record_of_loc by assumption.
    do 3 f_equal. lia.
Qed.

Lemma round_nearest_even_down mrs :
  shr_r mrs = false -> round_nearest_even (shr_m mrs) (loc_of_shr_record mrs) = shr_m mrs.
Proof. destruct mrs as [m [] []]; simpl; congruence. Qed.

Lemma round_nearest_even_up mrs :
  shr_r mrs = true -> Z.odd (shr_m mrs) = true ->
  round_nearest_even (shr_m mrs) (loc_of_shr_record mrs) = shr_m mrs + 1.
Proof.
  destruct mrs as [m [] []]; simpl; try congruence.
  intros _ Ho. rewrite <- Z.negb_odd, Ho. reflexivity.
Qed.

(** The largest double is [2^1024 - 2^971].  A quotient that is half a
    unit in the last place above it, [2^1024 - 2^970], or more, rounds
    beyond it; every smaller one rounds to a double. *)
Lemma int_truediv_1_overflow_iff d :
  1 <= d -> (int_truediv d 1 = Raise OverflowError <-> 2 ^ 1024 - 2 ^ 970 <= d).
Proof.
  intros Hd1.
  destruct (Z.lt_ge_cases d (2 ^ 1023)) as [Hlo|Hlo].
  { destruct (int_truediv_1_finite d ltac:(lia)) as (m & e & -> & _).
    split; [discriminate|]. intros Hge. exfalso. lia. }
  destruct (Z.lt_ge_cases d (2 ^ 1024)) as [Hhi|Hhi].
  2:{ rewrite (int_truediv_1_overflow d Hhi). split; [intros _; lia|reflexivity]. }
  assert (HD : Zdigits2 d = 1024) by (apply Zdigits2_unique; [split; assumption|lia]).
  rewrite int_truediv_1_round by lia.
  rewrite HD.
  assert (He' : Z.min (fexp prec emax (1024 - 1)) 0 = 0) by reflexivity.
  rewrite He'. change (2 ^ (- 0)) with 1. rewrite Z.mul_1_r.
  unfold binary_round_aux.
  destruct (shr_fexp_round_bit d 0) as (mrs1 & E1 & M1 & R1);
    [lia|rewrite HD; fexp_lia|].
  rewrite HD in E1, M1, R1.
  change (fexp prec emax (1024 + 0)) with 971 in E1, M1, R1.
  change (971 - 0 - 1) with 970 in R1. change (971 - 0) with 971 in M1.
  rewrite E1.
  assert (Hm1 : 2 ^ 52 <= shr_m mrs1 < 2 ^ 53).
  { rewrite M1. split.
    - apply Z.div_le_lower_bound; lia.
    - apply Z.div_lt_upper_bound; lia. }
  destruct (Z.lt_ge_cases d (2 ^ 1024 - 2 ^ 970)) as [Hlt|Hge].
  - (* below the threshold: the rounded mantissa stays below 2^53 *)
    assert (Hm2 : 2 ^ 52 <= round_nearest_even (shr_m mrs1) (loc_of_shr_record mrs1)
                  < 2 ^ 53).
    { pose proof (round_nearest_even_bounds (shr_m mrs1) (loc_of_shr_record mrs1)) as Hr.
      destruct (Z.eq_dec (shr_m mrs1) (2 ^ 53 - 1)) as [Heq|Hne]; [|lia].
      assert (Hq : d / 2 ^ 970 = 2 ^ 54 - 2).
      { assert (2 ^ 54 - 2 <= d / 2 ^ 970).
        { apply Z.div_le_lower_bound; [lia|].
          assert ((2 ^ 53 - 1) * 2 ^ 971 <= d); [|lia].
          rewrite <- Heq, M1. rewrite Z.mul_comm. apply Z.mul_div_le. lia. }
        assert (d / 2 ^ 970 < 2 ^ 54 - 1) by (apply Z.div_lt_upper_bound; lia).
        lia. }
      rewrite round_nearest_even_down; [lia|].
      rewrite R1, Hq. reflexivity. }
    set (m2 := round_nearest_even (shr_m mrs1) (loc_of_shr_record mrs1)) in *.
    clearbody m2.
    assert (HD2 : Zdigits2 m2 = 53) by (apply Zdigits2_unique; [exact Hm2|lia]).
    unfold shr_fexp. zdef. rewrite HD2.
    change (fexp prec emax (53 + 971) - 971) with 0. unfold shr.
    rewrite shr_m_record_of_loc.
    destruct m2 as [|p|p]; try lia.
    change (971 <=? emax - prec) with true. cbv iota.
    split; [discriminate|]. intros Hge. exfalso. lia.
  - (* at the threshold or above: the mantissa 2^53 - 1 is rounded up *)
    assert (Hq : d / 2 ^ 970 = 2 ^ 54 - 1).
    { assert (2 ^ 54 - 1 <= d / 2 ^ 970) by (apply Z.div_le_lower_bound; lia).
      assert (d / 2 ^ 970 < 2 ^ 54) by (apply Z.div_lt_upper_bound; lia).
      lia. }
    assert (Hm : shr_m mrs1 = 2 ^ 53 - 1).
    { assert (2 ^ 53 - 1 <= d / 2 ^ 971) by (apply Z.div_le_lower_bound; lia).
      lia. }
    rewrite round_nearest_even_up.
    + rewrite Hm. split; [intros _; assumption|]. intros _. vm_compute. reflexivity.
    + rewrite R1, Hq. reflexivity.
    + rewrite Hm. reflexivity.
Qed.

(** The reciprocal of a double between 1 and [2^900] is a positive finite
    double. *)
Lemma SFdiv_1_by_normal m e :
  bounded prec emax m e = true -> -52 <= e <= 900 ->
  exists m' e',
    SFdiv prec emax float_1 (S754_finite false m e) = S754_finite false m' e' /\
    bounded prec emax m' e' = true.
Proof.
  intros Hb He. pose proof Hb as Hb'. apply bounded_eq in Hb' as [Hc _].
  assert (Hdm : Zdigits2 (Z.pos m) = 53) by fexp_lia.
  pose proof (Zdigits2_bounds (Z.pos m) ltac:(lia)) as [Hml Hmu].
  rewrite Hdm in Hml, Hmu. change (2 ^ (53 - 1)) with (2 ^ 52) in Hml.
  unfold float_1, SFdiv.
  rewrite (SFdiv_core_binary_eq 4503599627370496 (-52) (Z.pos m) e) by lia.
  destruct (SFdiv_core_binary_ok 4503599627370496 (-52) (Z.pos m) e)
    as [Hq Hpre]; try lia.
  change (Zdigits2 4503599627370496) with 53 in *. rewrite Hdm in *.
  assert (He' : Z.min (fexp prec emax (53 + -52 - (53 + e))) (-52 - e) = -105 - e)
    by fexp_lia.
  rewrite He' in *. replace (-52 - e - (-105 - e)) with 53 in * by lia.
  set (q := 4503599627370496 * 2 ^ 53 / Z.pos m) in *.
  assert (Hq1 : 2 ^ 52 <= q).
  { subst q. apply Z.div_le_lower_bound; [lia|].
    change (4503599627370496 * 2 ^ 53) with (2 ^ 53 * 2 ^ 52). nia. }
  assert (Hq2 : q <= 2 ^ 53).
  { subst q. apply Z.div_le_upper_bound; [lia|].
    change (4503599627370496 * 2 ^ 53) with (2 ^ 52 * 2 ^ 53). nia. }
  pose proof (Zdigits2_ge_pow2 q 52 ltac:(lia) Hq1) as Hdq1.
  pose proof (Zdigits2_lt_pow2 q 54 ltac:(lia) ltac:(lia) ltac:(lia)) as Hdq2.
  match goal with
  | |- context [binary_round_aux _ _ ?s _ _ ?l] =>
      destruct (binary_round_aux_spec s q (-105 - e) l Hq Hpre)
        as [[_ Hz] | [[_ Hinf] | (m' & e' & -> & Hb2 & _)]]
  end.
  - exfalso.
    assert (He1 : fexp prec emax (Zdigits2 q + (-105 - e)) - (-105 - e) <= 1)
      by fexp_lia.
    assert (He0 : 0 <= fexp prec emax (Zdigits2 q + (-105 - e)) - (-105 - e))
      by lia.
    apply Z.div_small_iff in Hz; [|apply Z.pow_nonzero; lia].
    assert (2 ^ (fexp prec emax (Zdigits2 q + (-105 - e)) - (-105 - e)) <= 2 ^ 1)
      by (apply Z.pow_le_mono_r; lia).
    change (2 ^ 1) with 2 in *. lia.
  - exfalso. unfold emax, prec in Hinf. fexp_lia.
  - exists m', e'. auto.
Qed.

(** A finite double with sign bit clear is above 0. *)
Lemma float_gt_int_0 m e : float_gt_int (S754_finite false m e) 0 = true.
Proof.
  unfold float_gt_int. cbn [float_cmp_int].
  assert (Hpos : (inject_Z 0 < SF2Q (S754_finite false m e))%Q).
  { unfold SF2Q. change (inject_Z 0) with 0%Q.
    apply Qmult_lt_0_compat.
    - change 0%Q with (inject_Z 0). rewrite <- Zlt_Qlt. lia.
    - apply Qpower_0_lt. reflexivity. }
  destruct (Qcompare_spec (SF2Q (S754_finite false m e)) (inject_Z 0))
    as [Heq|Hlt|_]; [exfalso|exfalso|reflexivity].
  - rewrite Heq in Hpos. apply (Qlt_irrefl _ Hpos).
  - apply (Qlt_irrefl (inject_Z 0)).
    apply Qlt_trans with (SF2Q (S754_finite false m e)); assumption.
Qed.

Example int_truediv_examples :
  int_truediv 9 1 = Ok (S754_finite false 5066549580791808 (-49)) /\
  int_truediv (2 ^ 53) 1 = Ok (S754_finite false 4503599627370496 1) /\
  int_truediv (2 ^ 53 + 1) 1 = Ok (S754_finite false 4503599627370496 1) /\
  int_truediv (2 ^ 53 + 3) 1 = Ok (S754_finite false 4503599627370498 1) /\
  int_truediv (2 ^ 1024) 1 = Raise OverflowError /\
  int_truediv 1 3 = Ok (S754_finite false 6004799503160661 (-54)) /\
  int_truediv 1 0 = Raise ZeroDivisionError /\
  float_truediv float_1 (S754_finite false 6755399441055744 (-51))
    = Ok (S754_finite false 6004799503160661 (-54)).
Proof. vm_compute. repeat split. Qed.

End binary64.

(** * Comparisons *)

Lemma Qcompare_gt_mono (v : Q) (n n' : Z) :
  n <= n' -> (v ?= inject_Z n')%Q = Gt -> (v ?= inject_Z n)%Q = Gt.
Proof.
  intros Hn Hg. rewrite Zle_Qle in Hn.
  apply Qgt_alt in Hg. apply Qgt_alt.
  apply Qle_lt_trans with (inject_Z n'); assumption.
Qed.

Lemma float_gt_int_mono (r : float) (n n' : Z) :
  n <= n' -> float_gt_int r n' = true -> float_gt_int r n = true.
Proof.
  intros Hn. unfold float_gt_int.
  destruct r as [s|[]| |s m e]; cbn [float_cmp_int]; try congruence;
    (destruct (_ ?= inject_Z n')%Q eqn:E; try congruence;
     rewrite (Qcompare_gt_mono _ n n' Hn E); reflexivity).
Qed.

Lemma float_le_int_not_gt (r : float) (n : Z) :
  float_le_int r n = true -> float_gt_int r n = false.
Proof.
  unfold float_le_int, float_gt_int.
  destruct (float_cmp_int r n) as [[]|]; congruence.
Qed.

Lemma float_eq_int_le (r : float) (n : Z) :
  float_eq_int r n = true -> float_le_int r n = true.
Proof.
  unfold float_le_int, float_eq_int.
  destruct (float_cmp_int r n) as [[]|]; congruence.
Qed.

Lemma float_eq_int_gt (r : float) (n n' : Z) :
  n' < n -> float_eq_int r n = true -> float_gt_int r n' = true.
Proof.
  intros Hn. unfold float_eq_int, float_gt_int. rewrite Zlt_Qlt in Hn.
  assert (Hq : forall v : Q, (v ?= inject_Z n)%Q = Eq -> (v ?= inject_Z n')%Q = Gt).
  { intros v He. apply Qeq_alt in He. apply Qgt_alt. rewrite He. assumption. }
  destruct r as [s|[]| |s m e]; cbn [float_cmp_int]; try congruence;
    (destruct (_ ?= inject_Z n)%Q eqn:E; try congruence;
     rewrite (Hq _ E); reflexivity).
Qed.

(** A larger float is above every integer the smaller one is above. *)
Lemma float_le_gt_int (r1 r2 : float) (n : Z) :
  float_le r1 r2 = true -> float_gt_int r1 n = true -> float_gt_int r2 n = true.
Proof.
  unfold float_le, float_gt_int.
  assert (Hq : forall v1 v2 : Q,
             (v1 ?= v2)%Q <> Gt -> (v1 ?= inject_Z n)%Q = Gt -> (v2 ?= inject_Z n)%Q = Gt).
  { intros v1 v2 Hle Hg. apply Qle_alt in Hle. apply Qgt_alt in Hg. apply Qgt_alt.
    apply Qlt_le_trans with v1; assumption. }
  destruct r1 as [s1|[]| |s1 m1 e1], r2 as [s2|[]| |s2 m2 e2];
    cbn [float_cmp float_cmp_int]; try congruence; intros Hle Hg;
    match type of Hle with
    | match (?a ?= ?b)%Q with _ => _ end = true =>
        assert (Hab : (a ?= b)%Q <> Gt) by (destruct (a ?= b)%Q; congruence);
        assert (Hac : (a ?= inject_Z n)%Q = Gt)
          by (destruct (a ?= inject_Z n)%Q; congruence);
        rewrite (Hq a b Hab Hac); reflexivity
    end.
Qed.

Lemma float_not_gt_int_mono (r : float) (n n' : Z) :
  n <= n' -> float_gt_int r n = false -> float_gt_int r n' = false.
Proof.
  intros Hn Hf. destruct (float_gt_int r n') eqn:E; [|reflexivity].
  rewrite (float_gt_int_mono r n n' Hn E) in Hf. discriminate.
Qed.

(** * The magnitude ladder *)

(** The three [if] statements in a row amount to one descending ladder. *)
Lemma classify_magnitude_ladder (r : float) :
  classify_magnitude r =
    if float_gt_int r 10 then ParadigmShift
    else if float_gt_int r 5 then Epiphany
    else if float_gt_int r 2 then Major
    else Minor.
Proof. reflexivity. Qed.

(** C1: the magnitude classifier is a ladder of strict thresholds on the
    compression ratio, the highest satisfied tier winning: a ratio above 10
    is a ParadigmShift, one above 5 and at most 10 an Epiphany, one above 2
    and at most 5 Major, one above 1 and at most 2 Minor; a ratio of exactly
    2 is Minor, exactly 5 Major, exactly 10 an Epiphany. *)
Theorem magnitude_threshold_ladder (r : float) :
  (float_gt_int r 10 = true -> classify_magnitude r = ParadigmShift) /\
  (float_gt_int r 5 = true -> float_le_int r 10 = true ->
   classify_magnitude r = Epiphany) /\
  (float_gt_int r 2 = true -> float_le_int r 5 = true ->
   classify_magnitude r = Major) /\
  (float_gt_int r 1 = true -> float_le_int r 2 = true ->
   classify_magnitude r = Minor) /\
  (float_eq_int r 2 = true -> classify_magnitude r = Minor) /\
  (float_eq_int r 5 = true -> classify_magnitude r = Major) /\
  (float_eq_int r 10 = true -> classify_magnitude r = Epiphany).
Proof.
  rewrite classify_magnitude_ladder.
  assert (H2 : float_le_int r 2 = true -> classify_magnitude r = Minor).
  { intros Hle. apply float_le_int_not_gt in Hle. rewrite classify_magnitude_ladder.
    rewrite (float_not_gt_int_mono r 2 10), (float_not_gt_int_mono r 2 5), Hle;
      [reflexivity|lia|assumption|lia|assumption]. }
  assert (H5 : float_gt_int r 2 = true -> float_le_int r 5 = true ->
               classify_magnitude r = Major).
  { intros Hgt Hle. apply float_le_int_not_gt in Hle. rewrite classify_magnitude_ladder.
    rewrite (float_not_gt_int_mono r 5 10), Hle, Hgt; [reflexivity|lia|assumption]. }
  assert (H10 : float_gt_int r 5 = true -> float_le_int r 10 = true ->
                classify_magnitude r = Epiphany).
  { intros Hgt Hle. apply float_le_int_not_gt in Hle. rewrite classify_magnitude_ladder.
    rewrite Hle, Hgt. reflexivity. }
  rewrite classify_magnitude_ladder in H2, H5, H10.
  repeat split.
  - intros ->. reflexivity.
  - assumption.
  - assumption.
  - intros _. assumption.
  - intros He. apply H2, float_eq_int_le, He.
  - intros He. apply H5; [apply (float_eq_int_gt r 5 2); [lia|assumption]|].
    apply float_eq_int_le, He.
  - intros He. apply H10; [apply (float_eq_int_gt r 10 5); [lia|assumption]|].
    apply float_eq_int_le, He.
Qed.

Lemma magnitude_threshold_ladder_witness :
  classify_magnitude float_9 = Epiphany /\
  classify_magnitude float_10 = Epiphany /\
  classify_magnitude (S754_finite false 5629499534213121 (-49)) = ParadigmShift.
Proof.
  split; [|split].
  - apply (proj1 (proj2 (magnitude_threshold_ladder float_9)));
      vm_compute; reflexivity.
  - apply (proj2 (proj2 (proj2 (proj2 (proj2 (proj2
             (magnitude_threshold_ladder float_10)))))));
      vm_compute; reflexivity.
  - apply (proj1 (magnitude_threshold_ladder
                    (S754_finite false 5629499534213121 (-49))));
      vm_compute; reflexivity.
Defined.

(** The smallest double above each threshold is already in the next tier. *)
Example classify_boundaries :
  classify_magnitude (S754_finite false 4503599627370496 (-51)) = Minor /\
  classify_magnitude (S754_finite false 4503599627370497 (-51)) = Major /\
  classify_magnitude (S754_finite false 5629499534213120 (-50)) = Major /\
  classify_magnitude (S754_finite false 5629499534213121 (-50)) = Epiphany /\
  classify_magnitude float_10 = Epiphany /\
  classify_magnitude (S754_finite false 5629499534213121 (-49)) = ParadigmShift /\
  classify_magnitude (S754_infinity false) = ParadigmShift /\
  classify_magnitude S754_nan = Minor.
Proof. vm_compute. repeat split. Qed.

(** * [calculate_connection_capacity] *)

Section Capacity.
Context {Self : Type} {K : Kernel Self}.

Lemma capacity_unfold (a b : ThoughtNode) (s : Self) :
  calculate_connection_capacity a b s =
    match _get_graph_distance (id a) (id b) s with
    | (Raise e, s1) => (Raise e, s1)
    | (Ok d, s1) =>
        if d <=? 1 then (Ok None, s1)
        else
          match _check_resonance a b s1 with
          | (Raise e, s2) => (Raise e, s2)
          | (Ok resonance, s2) =>
              if negb resonance then (Ok None, s2)
              else
                match int_truediv d 1 with
                | Raise e => (Raise e, s2)
                | Ok ratio => (Ok (Some (event_of a b d ratio)), s2)
                end
          end
    end.
Proof.
  unfold calculate_connection_capacity, bind.
  destruct (_get_graph_distance (id a) (id b) s) as [[d|e] s1]; [|reflexivity].
  destruct (d <=? 1); [reflexivity|].
  destruct (_check_resonance a b s1) as [[[]|e] s2]; reflexivity.
Qed.

(** Every event comes from a distance above 1, a successful resonance
    check and a division that did not overflow. *)
Lemma capacity_some_inv (a b : ThoughtNode) (s s' : Self) (ev : InsightEvent) :
  calculate_connection_capacity a b s = (Ok (Some ev), s') ->
  exists d s1 ratio,
    _get_graph_distance (id a) (id b) s = (Ok d, s1) /\ 1 < d /\
    _check_resonance a b s1 = (Ok true, s') /\
    int_truediv d 1 = Ok ratio /\ ev = event_of a b d ratio.
Proof.
  rewrite capacity_unfold.
  destruct (_get_graph_distance (id a) (id b) s) as [[d|e] s1]; [|discriminate].
  destruct (Z.leb_spec d 1) as [Hle|Hgt]; [discriminate|].
  destruct (_check_resonance a b s1) as [[[]|e] s2] eqn:Er; try discriminate.
  cbn [negb].
  destruct (int_truediv d 1) as [ratio|e] eqn:Ed; [|discriminate].
  intros Heq. injection Heq as <- <-.
  exists d, s1, ratio. auto.
Qed.
End Capacity.

(** ** The quotient [d / 1] *)

Lemma float_eq_int_of_Qeq (x : float) (d : Z) :
  (exists m e, x = S754_finite false m e) -> (SF2Q x == inject_Z d)%Q ->
  float_eq_int x d = true.
Proof.
  intros (m & e & ->) Hq. unfold float_eq_int. cbn [float_cmp_int].
  apply Qeq_alt in Hq. rewrite Hq. reflexivity.
Qed.

(** Up to [2^53] the quotient is the distance itself. *)
Lemma int_truediv_1_exact (d : Z) :
  1 <= d <= 2 ^ 53 ->
  exists x, int_truediv d 1 = Ok x /\ float_eq_int x d = true.
Proof.
  intros [Hd1 Hd2]. destruct (Z.eq_dec d (2 ^ 53)) as [->|Hne].
  - eexists. split; [vm_compute; reflexivity|]. vm_compute. reflexivity.
  - destruct (binary64.int_truediv_1_small d ltac:(lia)) as (m & k & -> & _ & Hk & Hm).
    eexists. split; [reflexivity|].
    apply float_eq_int_of_Qeq; [eauto|].
    apply binary64.SF2Q_scaled; assumption.
Qed.

(** Whatever the distance above 1, the quotient is at least 1. *)
Lemma int_truediv_1_ge_1 (d : Z) (x : float) :
  1 < d -> int_truediv d 1 = Ok x -> float_ge_int x 1 = true.
Proof.
  intros Hd Hx. unfold float_ge_int.
  assert (Hq : forall m e, x = S754_finite false m e -> (1 <= SF2Q x)%Q ->
               match float_cmp_int x 1 with Some (Gt | Eq) => true | _ => false end = true).
  { intros m e -> Hle. cbn [float_cmp_int].
    destruct (Qcompare_spec (SF2Q (S754_finite false m e)) (inject_Z 1))
      as [_|Hlt|_]; try reflexivity.
    exfalso. apply (Qlt_not_le _ _ Hlt). exact Hle. }
  destruct (Z.lt_ge_cases d (2 ^ 53)) as [Hlt|Hge].
  - destruct (binary64.int_truediv_1_small d ltac:(lia)) as (m & k & Hs & _ & Hk & Hm).
    rewrite Hs in Hx. injection Hx as <-.
    apply (Hq m (- k)); [reflexivity|].
    rewrite (binary64.SF2Q_scaled m d k Hk Hm).
    change 1%Q with (inject_Z 1). rewrite <- Zle_Qle. lia.
  - destruct (binary64.int_truediv_1_large d Hge) as [Ho|(m & e & Hs & Hb & He)].
    + rewrite Ho in Hx. discriminate.
    + rewrite Hs in Hx. injection Hx as <-.
      apply (Hq m e); [reflexivity|].
      apply Qle_trans with (inject_Z (2 ^ 53)); [|apply binary64.bounded_large; assumption].
      change 1%Q with (inject_Z 1). rewrite <- Zle_Qle. lia.
Qed.

(** ** Results of [calculate_connection_capacity] *)

(** C2, as stated, fails on large distances: the identifiers [n0] and
    [n9007199254740993] are [2^53 + 1] apart and the resonance check
    succeeds, yet the ratio of the event is the double [2^53], the nearest
    to the quotient, which does not equal the surface distance. *)
Lemma ratio_differs_from_distance_above_2_53 :
  _get_graph_distance (id n0) (id n9007199254740993) empty_graph
    = (Ok 9007199254740993, empty_graph) /\
  _check_resonance n0 n9007199254740993 empty_graph = (Ok true, empty_graph) /\
  exists ev,
    calculate_connection_capacity n0 n9007199254740993 empty_graph
      = (Ok (Some ev), empty_graph) /\
    surface_distance ev = 9007199254740993 /\
    compression_ratio ev = S754_finite false 4503599627370496 1 /\
    float_eq_int (compression_ratio ev) (surface_distance ev) = false.
Proof.
  split; [vm_compute; reflexivity|]. split; [reflexivity|].
  eexists. split; [vm_compute; reflexivity|]. repeat split.
Qed.

(** C2, amended: for every pair of nodes whose reported surface distance
    [d] is greater than 1 and at most [2^53], and for which the resonance
    check returns true, the method returns an event whose compression
    ratio equals the surface distance, the tunnel distance being 1. *)
Theorem ratio_equals_distance
    (Self : Type) (K : Kernel Self) (a b : ThoughtNode) (s s1 s2 : Self) (d : Z) :
  _get_graph_distance (id a) (id b) s = (Ok d, s1) ->
  1 < d -> d <= 2 ^ 53 ->
  _check_resonance a b s1 = (Ok true, s2) ->
  exists ev,
    calculate_connection_capacity a b s = (Ok (Some ev), s2) /\
    surface_distance ev = d /\ tunnel_distance ev = 1 /\
    float_eq_int (compression_ratio ev) (surface_distance ev) = true.
Proof.
  intros Hd Hgt Hle Hr.
  destruct (int_truediv_1_exact d ltac:(lia)) as (x & Hx & Heq).
  exists (event_of a b d x). rewrite capacity_unfold, Hd.
  destruct (Z.leb_spec d 1) as [?|_]; [lia|].
  rewrite Hr. cbn [negb]. rewrite Hx. auto.
Qed.

Lemma ratio_equals_distance_witness :
  exists ev,
    calculate_connection_capacity n1 n10 path_graph = (Ok (Some ev), path_graph) /\
    surface_distance ev = 9 /\ tunnel_distance ev = 1 /\
    float_eq_int (compression_ratio ev) (surface_distance ev) = true.
Proof.
  apply (ratio_equals_distance GraphKernel InsightAwareKernel n1 n10
           path_graph path_graph path_graph 9);
    [vm_compute; reflexivity | lia | lia | reflexivity].
Defined.

(** C3: when the reported surface distance is at most 1 the method returns
    [None] and leaves the object as the distance query left it, so the
    resonance check was not made, whatever it would have answered; and when
    the distance is above 1 and the resonance check answers false, the
    method returns [None] as well. *)
Theorem no_event_when_adjacent_or_not_resonant
    (Self : Type) (K : Kernel Self) (a b : ThoughtNode) (s s1 : Self) (d : Z) :
  _get_graph_distance (id a) (id b) s = (Ok d, s1) ->
  (d <= 1 -> calculate_connection_capacity a b s = (Ok None, s1)) /\
  (1 < d -> forall s2 : Self,
     _check_resonance a b s1 = (Ok false, s2) ->
     calculate_connection_capacity a b s = (Ok None, s2)).
Proof.
  intros Hd. rewrite capacity_unfold, Hd. split.
  - intros Hle. destruct (Z.leb_spec d 1) as [_|?]; [reflexivity|lia].
  - intros Hgt s2 Hr. destruct (Z.leb_spec d 1) as [?|_]; [lia|].
    rewrite Hr. reflexivity.
Qed.

(** With a kernel that counts its resonance checks: at distance 1 the
    count stays 0 although the check would answer true; at distance 7 the
    check is made once, answers false, and there is no event. *)
Lemma no_event_when_adjacent_or_not_resonant_witness :
  calculate_connection_capacity (K := CountingKernel (fun _ _ => 1) true) n1 n10 0%nat
    = (Ok None, 0%nat) /\
  calculate_connection_capacity (K := CountingKernel (fun _ _ => 7) false) n1 n10 0%nat
    = (Ok None, 1%nat).
Proof.
  split.
  - apply (proj1 (no_event_when_adjacent_or_not_resonant nat
                    (CountingKernel (fun _ _ => 1) true) n1 n10 0%nat 0%nat 1 eq_refl)).
    lia.
  - apply (proj2 (no_event_when_adjacent_or_not_resonant nat
                    (CountingKernel (fun _ _ => 7) false) n1 n10 0%nat 0%nat 7 eq_refl));
      [lia|reflexivity].
Defined.

(** ** The distance of [InsightAwareKernel] *)

Lemma py_int_raises (s : string) (e : exn) : py_int s = Raise e -> e = ValueError.
Proof.
  unfold py_int.
  destruct (match strip s with EmptyString => _ | String _ _ => _ end) as [[digits n]|];
    [destruct (int_max_str_digits <? digits)|]; congruence.
Qed.

(** [int] on some literals: white space around, a sign and single
    underscores are taken; the separator 28 is not white space for [int];
    4300 digits are converted, 4301 are not. *)
Example py_int_examples :
  py_int " +1_0 " = Ok 10 /\
  py_int "-007" = Ok (-7) /\
  py_int "" = Raise ValueError /\
  py_int "1__0" = Raise ValueError /\
  py_int "1 0" = Raise ValueError /\
  py_int (String (ascii_of_nat 9) "5") = Ok 5 /\
  py_int (String (ascii_of_nat 28) "5") = Raise ValueError /\
  match py_int (ones 4300) with Ok _ => true | Raise _ => false end = true /\
  py_int (ones 4301) = Raise ValueError.
Proof. do 8 (split; [vm_compute; reflexivity|]). vm_compute. reflexivity. Qed.

Lemma mock_graph_distance_unfold (start end_ : string) (g : GraphKernel) :
  mock_graph_distance start end_ g =
    (match py_int (slice_from_1 start) with
     | Raise e => Raise e
     | Ok a =>
         match py_int (slice_from_1 end_) with
         | Raise e => Raise e
         | Ok b => Ok (Z.abs (a - b))
         end
     end, g).
Proof.
  unfold mock_graph_distance, bind, lift, ret.
  destruct (py_int (slice_from_1 start)); [|reflexivity].
  destruct (py_int (slice_from_1 end_)); reflexivity.
Qed.

(** C6, as stated, fails: in the graph without nodes, where both [n1] and
    [n10] are absent, the distance query does not fail; it returns 9. *)
Lemma distance_of_absent_nodes :
  nodes empty_graph !! id n1 = None /\
  nodes empty_graph !! id n10 = None /\
  _get_graph_distance (id n1) (id n10) empty_graph = (Ok 9, empty_graph).
Proof. repeat split. Qed.

(** C6, amended: for identifiers of ASCII characters, the distance of
    [InsightAwareKernel] is computed from the two identifiers alone and
    never looks at the graph's node set.  When [int] accepts the text after
    the first character of each identifier, the distance is the absolute
    difference of the two integers, whether or not the endpoints are nodes
    of the graph; when it rejects one of the two texts, the call raises
    [ValueError].  The call leaves the graph as it is, never fails with
    [NodeNotFound], and has the same outcome on every graph. *)
Theorem distance_ignores_node_set (g : GraphKernel) (start end_ : string) :
  isascii start = true -> isascii end_ = true ->
  _get_graph_distance start end_ g =
    (match py_int (slice_from_1 start), py_int (slice_from_1 end_) with
     | Ok a, Ok b => Ok (Z.abs (a - b))
     | _, _ => Raise ValueError
     end, g) /\
  fst (_get_graph_distance start end_ g) <> Raise NodeNotFound /\
  (forall g' : GraphKernel,
     fst (_get_graph_distance start end_ g') = fst (_get_graph_distance start end_ g)).
Proof.
  intros _ _. cbn [_get_graph_distance InsightAwareKernel].
  rewrite mock_graph_distance_unfold. repeat split.
  - destruct (py_int (slice_from_1 start)) as [a|e1] eqn:E1.
    + destruct (py_int (slice_from_1 end_)) as [b|e2] eqn:E2; [reflexivity|].
      rewrite (py_int_raises _ _ E2). reflexivity.
    + rewrite (py_int_raises _ _ E1). reflexivity.
  - cbn [fst].
    destruct (py_int (slice_from_1 start)) as [a|e1] eqn:E1.
    + destruct (py_int (slice_from_1 end_)) as [b|e2] eqn:E2; [discriminate|].
      rewrite (py_int_raises _ _ E2). discriminate.
    + rewrite (py_int_raises _ _ E1). discriminate.
  - intros g'. rewrite mock_graph_distance_unfold. reflexivity.
Qed.

(** On the graph without nodes: [n1] and [n10] are 9 apart; the
    identifiers of the humor demo carry no integer, and the query raises
    [ValueError]. *)
Lemma distance_ignores_node_set_witness :
  _get_graph_distance "n1" "n10" empty_graph = (Ok 9, empty_graph) /\
  _get_graph_distance "setup" "punchline" empty_graph = (Raise ValueError, empty_graph).
Proof.
  split.
  - exact (proj1 (distance_ignores_node_set empty_graph "n1" "n10" eq_refl eq_refl)).
  - exact (proj1 (distance_ignores_node_set empty_graph "setup" "punchline"
                    eq_refl eq_refl)).
Defined.

(** C4, as stated, fails: with [n1] as both arguments the method does not
    fail; it returns [None]. *)
Lemma same_node_returns_none :
  calculate_connection_capacity n1 n1 empty_graph = (Ok None, empty_graph).
Proof. reflexivity. Qed.

(** C4, amended: called with the same node as both arguments, or with
    two nodes that have the same identifier, an identifier made of ASCII
    characters, the method of [InsightAwareKernel] never fails with
    [InvalidInput]: when [int] accepts the text after the first character
    of the identifier, the distance is 0 and the method returns [None];
    when it rejects it, the method raises [ValueError].  The graph is left
    as it is. *)
Theorem same_node_yields_none_or_value_error (A B : ThoughtNode) (g : GraphKernel) :
  id A = id B -> isascii (id A) = true ->
  calculate_connection_capacity A B g =
    (match py_int (slice_from_1 (id A)) with
     | Ok _ => Ok None
     | Raise _ => Raise ValueError
     end, g) /\
  fst (calculate_connection_capacity A B g) <> Raise InvalidInput.
Proof.
  intros Hid _.
  assert (Heq : calculate_connection_capacity A B g =
                (match py_int (slice_from_1 (id A)) with
                 | Ok _ => Ok None
                 | Raise _ => Raise ValueError
                 end, g)).
  { rewrite capacity_unfold. cbn [_get_graph_distance _check_resonance InsightAwareKernel].
    rewrite mock_graph_distance_unfold, <- Hid.
    destruct (py_int (slice_from_1 (id A))) as [a|e] eqn:E.
    - replace (a - a) with 0 by lia. reflexivity.
    - rewrite (py_int_raises _ _ E). reflexivity. }
  split; [assumption|]. rewrite Heq. cbn [fst].
  destruct (py_int (slice_from_1 (id A))); discriminate.
Qed.

(** With the node [n10] twice the method returns [None]; with the node
    [setup] of the humor demo and another node of the same identifier it
    raises [ValueError]. *)
Lemma same_node_yields_none_or_value_error_witness :
  calculate_connection_capacity n10 n10 empty_graph = (Ok None, empty_graph) /\
  calculate_connection_capacity uavi_humor.setup cat_joke empty_graph
    = (Raise ValueError, empty_graph).
Proof.
  split.
  - exact (proj1 (same_node_yields_none_or_value_error n10 n10 empty_graph
                    eq_refl eq_refl)).
  - exact (proj1 (same_node_yields_none_or_value_error uavi_humor.setup cat_joke
                    empty_graph eq_refl eq_refl)).
Defined.

(** C7: when the surface distance between two nodes is 9 and the resonance
    check returns true, as for [n1] and [n10] on the path graph
    [n1 -> ... -> n10], the method returns an event with compression ratio
    [9.0] and magnitude Epiphany. *)
Theorem distance_9_is_an_epiphany
    (Self : Type) (K : Kernel Self) (a b : ThoughtNode) (s s1 s2 : Self) :
  _get_graph_distance (id a) (id b) s = (Ok 9, s1) ->
  _check_resonance a b s1 = (Ok true, s2) ->
  calculate_connection_capacity a b s =
    (Ok (Some {| source_id := id a;
                 target_id := id b;
                 surface_distance := 9;
                 tunnel_distance := 1;
                 compression_ratio := float_9;
                 magnitude := Epiphany |}), s2) /\
  float_eq_int float_9 9 = true.
Proof.
  intros Hd Hr. rewrite capacity_unfold, Hd. cbn [Z.leb Z.compare Pos.compare Pos.compare_cont].
  rewrite Hr. cbn [negb]. split; reflexivity.
Qed.

Lemma distance_9_is_an_epiphany_witness :
  calculate_connection_capacity n1 n10 path_graph =
    (Ok (Some {| source_id := "n1";
                 target_id := "n10";
                 surface_distance := 9;
                 tunnel_distance := 1;
                 compression_ratio := float_9;
                 magnitude := Epiphany |}), path_graph) /\
  float_eq_int float_9 9 = true.
Proof.
  apply (distance_9_is_an_epiphany GraphKernel InsightAwareKernel n1 n10
           path_graph path_graph path_graph);
    [vm_compute; reflexivity | reflexivity].
Defined.

(** C9: the magnitude of every event is the classification of its
    compression ratio and of nothing else, and the classification is
    monotonic: if [r1 <= r2] then the magnitude of [r1] is at most that of
    [r2] in the order Minor < Major < Epiphany < ParadigmShift. *)
Theorem magnitude_monotone_in_ratio :
  (forall (Self : Type) (K : Kernel Self) (a b : ThoughtNode) (s s' : Self)
          (ev : InsightEvent),
     calculate_connection_capacity a b s = (Ok (Some ev), s') ->
     magnitude ev = classify_magnitude (compression_ratio ev)) /\
  (forall r1 r2 : float,
     float_le r1 r2 = true ->
     (magnitude_rank (classify_magnitude r1)
      <= magnitude_rank (classify_magnitude r2))%nat).
Proof.
  split.
  - intros Self K a b s s' ev Hrun.
    destruct (capacity_some_inv a b s s' ev Hrun) as (d & s1 & ratio & _ & _ & _ & _ & ->).
    reflexivity.
  - intros r1 r2 Hle. rewrite !classify_magnitude_ladder.
    pose proof (float_le_gt_int r1 r2 10 Hle) as H10.
    pose proof (float_le_gt_int r1 r2 5 Hle) as H5.
    pose proof (float_le_gt_int r1 r2 2 Hle) as H2.
    pose proof (float_gt_int_mono r2 5 10 ltac:(lia)) as M10.
    pose proof (float_gt_int_mono r2 2 5 ltac:(lia)) as M5.
    destruct (float_gt_int r1 10), (float_gt_int r1 5), (float_gt_int r1 2),
      (float_gt_int r2 10), (float_gt_int r2 5), (float_gt_int r2 2);
      cbn [magnitude_rank]; try lia;
      try (specialize (H10 eq_refl)); try (specialize (H5 eq_refl));
      try (specialize (H2 eq_refl)); try (specialize (M10 eq_refl));
      try (specialize (M5 eq_refl)); discriminate.
Qed.

Lemma magnitude_monotone_in_ratio_witness :
  magnitude (event_of n1 n10 9 float_9) = classify_magnitude float_9 /\
  (magnitude_rank (classify_magnitude float_9)
   <= magnitude_rank (classify_magnitude float_10))%nat.
Proof.
  split.
  - apply (proj1 magnitude_monotone_in_ratio GraphKernel InsightAwareKernel
             n1 n10 path_graph path_graph).
    vm_compute. reflexivity.
  - apply (proj2 magnitude_monotone_in_ratio). vm_compute. reflexivity.
Defined.

(** * [measure_humor_potential] *)

Lemma simulate_unfold (a b : ThoughtNode) (g : GraphKernel) :
  uavi_humor._simulate_semantic_distance a b g =
    (if 0 <? shared_tags a b then float_truediv_int float_1 (shared_tags a b)
     else Ok float_10, g).
Proof.
  unfold uavi_humor._simulate_semantic_distance. fold (shared_tags a b).
  destruct (0 <? shared_tags a b); reflexivity.
Qed.

(** The guard [tunnel_dist > 0] holds, so the method always divides. *)
Lemma measure_unfold (a b : ThoughtNode) (g : GraphKernel) :
  uavi_humor.measure_humor_potential a b g =
    match uavi_humor._simulate_semantic_distance a b g with
    | (Raise e, g') => (Raise e, g')
    | (Ok surface_dist, g') =>
        (Ok {| uavi_humor.surface_distance := surface_dist;
               uavi_humor.tunnel_distance := float_1;
               uavi_humor.compression_ratio :=
                 uavi_humor.PyFloat (SFdiv prec emax surface_dist float_1) |}, g')
    end.
Proof.
  unfold uavi_humor.measure_humor_potential, bind.
  destruct (uavi_humor._simulate_semantic_distance a b g) as [[x|e] g']; reflexivity.
Qed.

Lemma float_cmp_refl (x : float) : x <> S754_nan -> float_cmp x x = Some Eq.
Proof.
  destruct x as [s|[]| |s m e]; cbn [float_cmp]; try congruence; intros _;
    f_equal; apply Qeq_alt; reflexivity.
Qed.

(** [float(k)] for a count [k] of shared tags. *)
Lemma float_of_count (k : Z) :
  1 <= k <= sys_maxsize ->
  exists m e,
    float_of_int k = Ok (S754_finite false m e) /\ bounded prec emax m e = true /\
    Zdigits2 k - 53 <= e <= Zdigits2 k - 52.
Proof.
  intros [Hk1 Hk2]. apply binary64.float_of_int_finite.
  unfold sys_maxsize in Hk2. split; [lia|].
  apply Z.le_lt_trans with (2 ^ 63 - 1); [assumption|].
  assert (2 ^ 63 <= 2 ^ 1023) by (apply Z.pow_le_mono_r; lia). lia.
Qed.

(** [1.0 / k] for a count [k] of shared tags: a valid double, not a NaN. *)
Lemma one_over_count (k : Z) :
  1 <= k <= sys_maxsize ->
  exists x,
    float_truediv_int float_1 k = Ok x /\
    valid_binary prec emax x = true /\ x <> S754_nan.
Proof.
  intros Hk. destruct (float_of_count k Hk) as (m & e & Hy & Hb & _).
  unfold float_truediv_int. rewrite Hy. cbn [result_bind].
  unfold float_truediv. cbn [is_zero].
  eexists. split; [reflexivity|]. split; [apply binary64.valid_SFdiv|].
  unfold float_1.
  destruct (binary64.SFdiv_finite_cases false 4503599627370496 (-52) false m e)
    as [->|[->|(m' & e' & -> & _)]]; discriminate.
Qed.

(** With two shared tags or more, [1.0 / k] is below 1. *)
Lemma one_over_count_below_1 (k : Z) (x : float) :
  2 <= k <= sys_maxsize ->
  float_truediv_int float_1 k = Ok x -> float_ge_int x 1 = false.
Proof.
  intros Hk. destruct (float_of_count k ltac:(lia)) as (m & e & Hy & Hb & He).
  unfold float_truediv_int. rewrite Hy. cbn [result_bind].
  unfold float_truediv. cbn [is_zero]. intros [= <-].
  apply binary64.SFdiv_1_by_large; [assumption|].
  pose proof (binary64.Zdigits2_ge_pow2 k 1 ltac:(lia) ltac:(lia)).
  pose proof (binary64.Zdigits2_lt_pow2 k 63 ltac:(lia) ltac:(lia)
                ltac:(unfold sys_maxsize in Hk; lia)).
  lia.
Qed.

(** C5, as stated, fails for the humor measurement: two nodes with two
    tags in common get the surface distance [1.0 / 2] and the compression
    ratio [0.5], which is below 1. *)
Lemma humor_ratio_below_one :
  exists hm,
    uavi_humor.measure_humor_potential cat_joke cat_fact empty_graph
      = (Ok hm, empty_graph) /\
    uavi_humor.tunnel_distance hm = float_1 /\
    uavi_humor.compression_ratio hm
      = uavi_humor.PyFloat (S754_finite false 4503599627370496 (-53)) /\
    float_ge_int (S754_finite false 4503599627370496 (-53)) 1 = false.
Proof. eexists. split; [vm_compute; reflexivity|]. repeat split. Qed.

(** C5, amended: every event of [calculate_connection_capacity] has tunnel
    distance exactly 1 and a compression ratio of at least 1.  Every result
    of [measure_humor_potential] has tunnel distance exactly [1.0]; its
    compression ratio is at least 1 when the two nodes share at most one
    tag, and below 1 when they share two tags or more. *)
Theorem tunnel_distance_is_one :
  (forall (Self : Type) (K : Kernel Self) (a b : ThoughtNode) (s s' : Self)
          (ev : InsightEvent),
     calculate_connection_capacity a b s = (Ok (Some ev), s') ->
     tunnel_distance ev = 1 /\ float_ge_int (compression_ratio ev) 1 = true) /\
  (forall (a b : ThoughtNode) (g g' : GraphKernel) (hm : uavi_humor.HumorMetric),
     uavi_humor.measure_humor_potential a b g = (Ok hm, g') ->
     uavi_humor.tunnel_distance hm = float_1 /\
     float_eq_int (uavi_humor.tunnel_distance hm) 1 = true /\
     exists x,
       uavi_humor.compression_ratio hm = uavi_humor.PyFloat x /\
       (shared_tags a b <= 1 -> float_ge_int x 1 = true) /\
       (2 <= shared_tags a b <= sys_maxsize -> float_ge_int x 1 = false)).
Proof.
  split.
  - intros Self K a b s s' ev Hrun.
    destruct (capacity_some_inv a b s s' ev Hrun)
      as (d & s1 & ratio & _ & Hd & _ & Hq & ->).
    split; [reflexivity|]. apply (int_truediv_1_ge_1 d); assumption.
  - intros a b g g' hm. rewrite measure_unfold, simulate_unfold.
    destruct (Z.ltb_spec 0 (shared_tags a b)) as [Hpos|Hzero].
    + destruct (float_truediv_int float_1 (shared_tags a b)) as [x|e] eqn:Ex;
        [|discriminate].
      intros [= <- <-]. split; [reflexivity|]. split; [reflexivity|].
      eexists. split; [reflexivity|]. split.
      * intros Hle. assert (Hone : shared_tags a b = 1) by lia.
        rewrite Hone in Ex. vm_compute in Ex. injection Ex as <-.
        vm_compute. reflexivity.
      * intros Hk.
        destruct (one_over_count (shared_tags a b) ltac:(lia)) as (y & Hy & Hv & _).
        rewrite Hy in Ex. injection Ex as ->.
        rewrite (binary64.SFdiv_1 x Hv).
        apply (one_over_count_below_1 (shared_tags a b)); assumption.
    + intros [= <- <-]. split; [reflexivity|]. split; [reflexivity|].
      eexists. split; [reflexivity|]. split; [intros _; vm_compute; reflexivity|lia].
Qed.

Lemma tunnel_distance_is_one_witness :
  (tunnel_distance (event_of n1 n10 9 float_9) = 1 /\
   float_ge_int (compression_ratio (event_of n1 n10 9 float_9)) 1 = true) /\
  uavi_humor.tunnel_distance
    {| uavi_humor.surface_distance := float_10;
       uavi_humor.tunnel_distance := float_1;
       uavi_humor.compression_ratio := uavi_humor.PyFloat float_10 |} = float_1.
Proof.
  split.
  - apply (proj1 tunnel_distance_is_one GraphKernel InsightAwareKernel
             n1 n10 path_graph path_graph).
    vm_compute. reflexivity.
  - apply (proj2 tunnel_distance_is_one uavi_humor.setup uavi_humor.punchline
             empty_graph empty_graph).
    vm_compute. reflexivity.
Defined.

(** C8: for any two nodes whose tag sets are disjoint, the simulated
    distance is [10.0], the humor measurement has compression ratio
    [10.0], and a ratio of exactly [10.0] classifies as Epiphany, not as
    ParadigmShift. *)
Theorem disjoint_tags_give_ratio_10 (a b : ThoughtNode) (g : GraphKernel) :
  uavi_humor.tag_set a ## uavi_humor.tag_set b ->
  uavi_humor._simulate_semantic_distance a b g = (Ok float_10, g) /\
  uavi_humor.measure_humor_potential a b g =
    (Ok {| uavi_humor.surface_distance := float_10;
           uavi_humor.tunnel_distance := float_1;
           uavi_humor.compression_ratio := uavi_humor.PyFloat float_10 |}, g) /\
  float_eq_int float_10 10 = true /\
  classify_magnitude float_10 = Epiphany /\
  classify_magnitude float_10 <> ParadigmShift.
Proof.
  intros Hdisj.
  assert (Hk : shared_tags a b = 0).
  { unfold shared_tags. apply disjoint_intersection_L in Hdisj.
    rewrite Hdisj, size_empty. reflexivity. }
  assert (Hs : uavi_humor._simulate_semantic_distance a b g = (Ok float_10, g)).
  { rewrite simulate_unfold, Hk. reflexivity. }
  split; [assumption|]. split.
  - rewrite measure_unfold, Hs. reflexivity.
  - repeat split. discriminate.
Qed.

Lemma disjoint_tags_give_ratio_10_witness :
  uavi_humor.measure_humor_potential uavi_humor.setup uavi_humor.punchline empty_graph =
    (Ok {| uavi_humor.surface_distance := float_10;
           uavi_humor.tunnel_distance := float_1;
           uavi_humor.compression_ratio := uavi_humor.PyFloat float_10 |}, empty_graph).
Proof.
  apply (disjoint_tags_give_ratio_10 uavi_humor.setup uavi_humor.punchline empty_graph).
  apply disjoint_intersection_L. apply (bool_decide_unpack _). vm_compute. exact I.
Defined.

(** C10: for every pair of nodes, the same node twice and nodes that share
    tags included, [measure_humor_potential] returns a [HumorMetric]: it
    has no adjacency gate and no resonance gate.  Its tunnel distance is
    [1.0], the guard [tunnel_dist > 0] holds, so the ratio is the quotient
    and never the [0] of the other branch, and the compression ratio equals
    the simulated surface distance.  (The number of shared tags is a length
    of a Python set, at most [sys.maxsize].) *)
Theorem humor_metric_always_returned (a b : ThoughtNode) (g : GraphKernel) :
  shared_tags a b <= sys_maxsize ->
  exists surface_dist : float,
    uavi_humor._simulate_semantic_distance a b g = (Ok surface_dist, g) /\
    uavi_humor.measure_humor_potential a b g =
      (Ok {| uavi_humor.surface_distance := surface_dist;
             uavi_humor.tunnel_distance := float_1;
             uavi_humor.compression_ratio := uavi_humor.PyFloat surface_dist |}, g) /\
    float_gt_int float_1 0 = true /\
    float_cmp surface_dist surface_dist = Some Eq.
Proof.
  intros Hsize.
  assert (Hx : exists x, uavi_humor._simulate_semantic_distance a b g = (Ok x, g) /\
                         valid_binary prec emax x = true /\ x <> S754_nan).
  { rewrite simulate_unfold.
    destruct (Z.ltb_spec 0 (shared_tags a b)) as [Hpos|Hzero].
    - destruct (one_over_count (shared_tags a b) ltac:(lia)) as (x & -> & Hv & Hn).
      exists x. auto.
    - exists float_10. repeat split. discriminate. }
  destruct Hx as (x & Hs & Hv & Hn). exists x.
  split; [assumption|]. split.
  - rewrite measure_unfold, Hs, (binary64.SFdiv_1 x Hv). reflexivity.
  - split; [reflexivity|]. apply float_cmp_refl. assumption.
Qed.

Lemma humor_metric_always_returned_witness :
  exists surface_dist : float,
    uavi_humor._simulate_semantic_distance cat_joke cat_joke empty_graph
      = (Ok surface_dist, empty_graph) /\
    uavi_humor.measure_humor_potential cat_joke cat_joke empty_graph =
      (Ok {| uavi_humor.surface_distance := surface_dist;
             uavi_humor.tunnel_distance := float_1;
             uavi_humor.compression_ratio := uavi_humor.PyFloat surface_dist |},
       empty_graph) /\
    float_gt_int float_1 0 = true /\
    float_cmp surface_dist surface_dist = Some Eq.
Proof.
  apply (humor_metric_always_returned cat_joke cat_joke empty_graph).
  vm_compute. discriminate.
Defined.

(** * Further properties of the two kernels *)

(** ** The distance of [InsightAwareKernel] *)

(** X1: the distance does not depend on the order of its arguments, also
    when an identifier does not parse: both orders raise [ValueError]. *)
Theorem distance_symmetric (g : GraphKernel) (start end_ : string) :
  _get_graph_distance start end_ g = _get_graph_distance end_ start g.
Proof.
  cbn [_get_graph_distance InsightAwareKernel].
  rewrite !mock_graph_distance_unfold.
  destruct (py_int (slice_from_1 start)) as [a|e1] eqn:E1,
           (py_int (slice_from_1 end_)) as [b|e2] eqn:E2.
  - replace (b - a) with (- (a - b)) by lia. rewrite Z.abs_opp. reflexivity.
  - reflexivity.
  - reflexivity.
  - rewrite (py_int_raises _ _ E1), (py_int_raises _ _ E2). reflexivity.
Qed.

(** X2: where it is defined, the distance is a pseudometric on the
    identifiers of ASCII characters: it is not negative, it is 0 exactly
    when the texts after the first characters denote the same integer, and
    it satisfies the triangle inequality. *)
Theorem distance_pseudometric (g : GraphKernel) (a b c : string) (x y z : Z) :
  isascii a = true -> isascii b = true -> isascii c = true ->
  py_int (slice_from_1 a) = Ok x ->
  py_int (slice_from_1 b) = Ok y ->
  py_int (slice_from_1 c) = Ok z ->
  exists dab dbc dac,
    _get_graph_distance a b g = (Ok dab, g) /\
    _get_graph_distance b c g = (Ok dbc, g) /\
    _get_graph_distance a c g = (Ok dac, g) /\
    0 <= dab /\ (dab = 0 <-> x = y) /\ dac <= dab + dbc.
Proof.
  intros _ _ _ Ha Hb Hc. cbn [_get_graph_distance InsightAwareKernel].
  rewrite !mock_graph_distance_unfold, Ha, Hb, Hc.
  exists (Z.abs (x - y)), (Z.abs (y - z)), (Z.abs (x - z)).
  repeat split; lia.
Qed.

Lemma distance_pseudometric_witness :
  exists dab dbc dac,
    _get_graph_distance "a7" "b07" empty_graph = (Ok dab, empty_graph) /\
    _get_graph_distance "b07" "n-3" empty_graph = (Ok dbc, empty_graph) /\
    _get_graph_distance "a7" "n-3" empty_graph = (Ok dac, empty_graph) /\
    0 <= dab /\ (dab = 0 <-> 7 = 7) /\ dac <= dab + dbc.
Proof.
  apply (distance_pseudometric empty_graph "a7" "b07" "n-3" 7 7 (-3));
    vm_compute; reflexivity.
Defined.

(** ** [calculate_connection_capacity], for every kernel *)

Lemma Qcompare_inject_Z (a b : Z) : (inject_Z a ?= inject_Z b)%Q = (a ?= b).
Proof. unfold Qcompare. cbn [Qnum Qden inject_Z]. rewrite !Z.mul_1_r. reflexivity. Qed.

(** The quotient [d / 1] is above a threshold below [2^53] exactly when the
    distance is, also where the quotient is rounded. *)
Lemma int_truediv_1_gt (d n : Z) (x : float) :
  1 <= d -> n < 2 ^ 53 -> int_truediv d 1 = Ok x ->
  float_gt_int x n = (n <? d).
Proof.
  intros Hd Hn Hx. unfold float_gt_int.
  destruct (Z.lt_ge_cases d (2 ^ 53)) as [Hlt|Hge].
  - destruct (binary64.int_truediv_1_small d ltac:(lia)) as (m & k & Hs & _ & Hk & Hm).
    rewrite Hs in Hx. injection Hx as <-. cbn [float_cmp_int].
    rewrite (binary64.SF2Q_scaled m d k Hk Hm), Qcompare_inject_Z.
    destruct (Z.compare_spec d n), (Z.ltb_spec n d); try reflexivity; lia.
  - destruct (binary64.int_truediv_1_large d Hge) as [Ho|(m & e & Hs & Hb & He)].
    + rewrite Ho in Hx. discriminate.
    + rewrite Hs in Hx. injection Hx as <-. cbn [float_cmp_int].
      pose proof (binary64.bounded_large m e Hb He) as Hle.
      assert (Hlt : (inject_Z n < SF2Q (S754_finite false m e))%Q).
      { apply Qlt_le_trans with (inject_Z (2 ^ 53)); [|assumption].
        rewrite <- Zlt_Qlt. assumption. }
      destruct (Z.ltb_spec n d); [|lia].
      destruct (Qcompare_spec (SF2Q (S754_finite false m e)) (inject_Z n))
        as [Heq|Hlt'|_]; [exfalso|exfalso|reflexivity].
      * rewrite Heq in Hlt. apply (Qlt_irrefl _ Hlt).
      * apply (Qlt_irrefl (inject_Z n)).
        apply Qlt_trans with (SF2Q (S754_finite false m e)); assumption.
Qed.

(** X3: an event is only produced for a reported distance above 1 and a
    resonance check that returned true; its source and target are the
    identifiers of the two nodes in the order given, its surface distance
    is the reported distance, its tunnel distance is 1 and its ratio is
    the quotient of the two. *)
Theorem event_only_from_distant_resonant_nodes
    (Self : Type) (K : Kernel Self) (a b : ThoughtNode) (s s' : Self)
    (ev : InsightEvent) :
  calculate_connection_capacity a b s = (Ok (Some ev), s') ->
  exists s1 : Self,
    _get_graph_distance (id a) (id b) s = (Ok (surface_distance ev), s1) /\
    1 < surface_distance ev /\
    _check_resonance a b s1 = (Ok true, s') /\
    source_id ev = id a /\ target_id ev = id b /\ tunnel_distance ev = 1 /\
    int_truediv (surface_distance ev) (tunnel_distance ev) = Ok (compression_ratio ev).
Proof.
  intros Hrun.
  destruct (capacity_some_inv a b s s' ev Hrun)
    as (d & s1 & ratio & Hd & Hgt & Hr & Hq & ->).
  exists s1. cbn [event_of surface_distance tunnel_distance compression_ratio
                    source_id target_id]. auto 10.
Qed.

Lemma event_only_from_distant_resonant_nodes_witness :
  exists s1 : GraphKernel,
    _get_graph_distance (id n1) (id n10) path_graph
      = (Ok (surface_distance (event_of n1 n10 9 float_9)), s1) /\
    1 < surface_distance (event_of n1 n10 9 float_9) /\
    _check_resonance n1 n10 s1 = (Ok true, path_graph) /\
    source_id (event_of n1 n10 9 float_9) = id n1 /\
    target_id (event_of n1 n10 9 float_9) = id n10 /\
    tunnel_distance (event_of n1 n10 9 float_9) = 1 /\
    int_truediv (surface_distance (event_of n1 n10 9 float_9))
                (tunnel_distance (event_of n1 n10 9 float_9))
      = Ok (compression_ratio (event_of n1 n10 9 float_9)).
Proof.
  apply (event_only_from_distant_resonant_nodes GraphKernel InsightAwareKernel
           n1 n10 path_graph path_graph).
  vm_compute. reflexivity.
Defined.

(** X4: the magnitude of an event can be read off its integer surface
    distance: 2 is Minor, 3 to 5 Major, 6 to 10 an Epiphany and 11 or more
    a ParadigmShift, also for distances so large that the ratio is
    rounded. *)
Theorem magnitude_by_distance
    (Self : Type) (K : Kernel Self) (a b : ThoughtNode) (s s' : Self)
    (ev : InsightEvent) :
  calculate_connection_capacity a b s = (Ok (Some ev), s') ->
  magnitude ev =
    if 10 <? surface_distance ev then ParadigmShift
    else if 5 <? surface_distance ev then Epiphany
    else if 2 <? surface_distance ev then Major
    else Minor.
Proof.
  intros Hrun.
  destruct (capacity_some_inv a b s s' ev Hrun)
    as (d & s1 & ratio & _ & Hgt & _ & Hq & ->).
  cbn [event_of magnitude surface_distance].
  rewrite classify_magnitude_ladder.
  rewrite (int_truediv_1_gt d 10 ratio), (int_truediv_1_gt d 5 ratio),
    (int_truediv_1_gt d 2 ratio) by (assumption || lia).
  reflexivity.
Qed.

Lemma magnitude_by_distance_witness :
  magnitude (event_of n1 n10 9 float_9) =
    if 10 <? surface_distance (event_of n1 n10 9 float_9) then ParadigmShift
    else if 5 <? surface_distance (event_of n1 n10 9 float_9) then Epiphany
    else if 2 <? surface_distance (event_of n1 n10 9 float_9) then Major
    else Minor.
Proof.
  apply (magnitude_by_distance GraphKernel InsightAwareKernel
           n1 n10 path_graph path_graph).
  vm_compute. reflexivity.
Defined.

(** X5: the division is the only step that can fail after the two
    queries.  With a resonance check that returned true, a distance of
    [2^1024] or more makes the method raise [OverflowError], after the
    check was made; a distance above 1 and below [2^1023] always gives an
    event. *)
Theorem overflow_on_huge_distance
    (Self : Type) (K : Kernel Self) (a b : ThoughtNode) (s s1 s2 : Self) (d : Z) :
  _get_graph_distance (id a) (id b) s = (Ok d, s1) ->
  _check_resonance a b s1 = (Ok true, s2) ->
  (2 ^ 1024 <= d ->
   calculate_connection_capacity a b s = (Raise OverflowError, s2)) /\
  (1 < d < 2 ^ 1023 ->
   exists ev, calculate_connection_capacity a b s = (Ok (Some ev), s2) /\
              surface_distance ev = d).
Proof.
  intros Hd Hr. rewrite capacity_unfold, Hd. split.
  - intros Hbig.
    assert (2 ^ 1 <= 2 ^ 1024) by (apply Z.pow_le_mono_r; lia).
    destruct (Z.leb_spec d 1) as [?|_]; [change (2 ^ 1) with 2 in *; lia|].
    rewrite Hr. cbn [negb].
    rewrite (binary64.int_truediv_1_overflow d Hbig). reflexivity.
  - intros [Hlo Hhi]. destruct (Z.leb_spec d 1) as [?|_]; [lia|].
    rewrite Hr. cbn [negb].
    destruct (binary64.int_truediv_1_finite d ltac:(lia)) as (m & e & -> & _).
    eexists. split; reflexivity.
Qed.

Lemma overflow_on_huge_distance_witness :
  calculate_connection_capacity (K := CountingKernel (fun _ _ => 2 ^ 1024) true)
    n1 n10 0%nat = (Raise OverflowError, 1%nat) /\
  exists ev,
    calculate_connection_capacity (K := CountingKernel (fun _ _ => 2 ^ 1000) true)
      n1 n10 0%nat = (Ok (Some ev), 1%nat) /\
    surface_distance ev = 2 ^ 1000.
Proof.
  split.
  - apply (proj1 (overflow_on_huge_distance nat
                    (CountingKernel (fun _ _ => 2 ^ 1024) true) n1 n10
                    0%nat 0%nat 1%nat (2 ^ 1024) eq_refl eq_refl)).
    lia.
  - apply (proj2 (overflow_on_huge_distance nat
                    (CountingKernel (fun _ _ => 2 ^ 1000) true) n1 n10
                    0%nat 0%nat 1%nat (2 ^ 1000) eq_refl eq_refl)).
    split; [|apply Z.pow_lt_mono_r]; lia.
Defined.

(** X6: an exception of either query is passed on unchanged and ends the
    method at once: when the distance query raises, the resonance check is
    not made; when the resonance check raises, nothing is divided. *)
Theorem query_errors_propagate
    (Self : Type) (K : Kernel Self) (a b : ThoughtNode) (s s1 : Self) (e : exn) :
  (_get_graph_distance (id a) (id b) s = (Raise e, s1) ->
   calculate_connection_capacity a b s = (Raise e, s1)) /\
  (forall (d : Z) (s2 : Self),
     _get_graph_distance (id a) (id b) s = (Ok d, s1) -> 1 < d ->
     _check_resonance a b s1 = (Raise e, s2) ->
     calculate_connection_capacity a b s = (Raise e, s2)).
Proof.
  split.
  - intros Hd. rewrite capacity_unfold, Hd. reflexivity.
  - intros d s2 Hd Hgt Hr. rewrite capacity_unfold, Hd.
    destruct (Z.leb_spec d 1) as [?|_]; [lia|]. rewrite Hr. reflexivity.
Qed.

(** With the kernel of the source: an identifier without a number after
    its first character, as those of the humor demo, raises [ValueError]. *)
Lemma query_errors_propagate_witness :
  calculate_connection_capacity uavi_humor.setup uavi_humor.punchline empty_graph
    = (Raise ValueError, empty_graph).
Proof.
  apply (proj1 (query_errors_propagate GraphKernel InsightAwareKernel
                  uavi_humor.setup uavi_humor.punchline
                  empty_graph empty_graph ValueError)).
  vm_compute. reflexivity.
Defined.

(** ** [calculate_connection_capacity], for [InsightAwareKernel] *)

(** X7: with the kernel of the source the method is symmetric in its two
    nodes, up to the exchange of source and target: the other order gives
    the same outcome, with the same distance, ratio and magnitude, and
    neither order changes the graph. *)
Theorem capacity_symmetric (a b : ThoughtNode) (g : GraphKernel) :
  calculate_connection_capacity b a g =
    (match fst (calculate_connection_capacity a b g) with
     | Ok (Some ev) =>
         Ok (Some (event_of b a (surface_distance ev) (compression_ratio ev)))
     | outcome => outcome
     end, g) /\
  snd (calculate_connection_capacity a b g) = g.
Proof.
  rewrite !capacity_unfold.
  cbn [_get_graph_distance _check_resonance InsightAwareKernel].
  rewrite !mock_graph_distance_unfold.
  destruct (py_int (slice_from_1 (id a))) as [x|e1] eqn:E1,
           (py_int (slice_from_1 (id b))) as [y|e2] eqn:E2;
    try (split; reflexivity).
  - replace (y - x) with (- (x - y)) by lia. rewrite Z.abs_opp.
    destruct (Z.abs (x - y) <=? 1); [split; reflexivity|].
    unfold mock_check_resonance, ret. cbn [negb].
    destruct (int_truediv (Z.abs (x - y)) 1); split; reflexivity.
  - rewrite (py_int_raises _ _ E1), (py_int_raises _ _ E2). split; reflexivity.
Qed.

(** X8: with the kernel of the source, and identifiers of ASCII
    characters that carry integers, the method returns [None] exactly when
    the two integers differ by at most 1; identifiers that differ only in
    their first character, or in the spelling of the same integer, never
    give an event. *)
Theorem none_iff_numbers_adjacent
    (a b : ThoughtNode) (g : GraphKernel) (x y : Z) :
  isascii (id a) = true -> isascii (id b) = true ->
  py_int (slice_from_1 (id a)) = Ok x ->
  py_int (slice_from_1 (id b)) = Ok y ->
  (calculate_connection_capacity a b g = (Ok None, g) <-> Z.abs (x - y) <= 1).
Proof.
  intros _ _ Ha Hb. rewrite capacity_unfold.
  cbn [_get_graph_distance _check_resonance InsightAwareKernel].
  rewrite mock_graph_distance_unfold, Ha, Hb.
  destruct (Z.leb_spec (Z.abs (x - y)) 1) as [Hle|Hgt].
  - split; [intros _; assumption|reflexivity].
  - unfold mock_check_resonance, ret. cbn [negb].
    split; [|lia]. destruct (int_truediv (Z.abs (x - y)) 1); discriminate.
Qed.

Lemma none_iff_numbers_adjacent_witness :
  calculate_connection_capacity (node "a7" []) (node "b07" []) empty_graph
    = (Ok None, empty_graph) <-> Z.abs (7 - 7) <= 1.
Proof.
  apply (none_iff_numbers_adjacent (node "a7" []) (node "b07" []) empty_graph 7 7);
    vm_compute; reflexivity.
Defined.

(** X9: with the kernel of the source, and identifiers of ASCII
    characters, the method raises nothing but [ValueError] and
    [OverflowError].  It raises [ValueError] exactly when [int] rejects the
    text after the first character of one of the two identifiers.  It
    raises [OverflowError] exactly when the two integers are at least
    [2^1024 - 2^970] apart, where the quotient rounds beyond the largest
    double. *)
Theorem capacity_exceptions (a b : ThoughtNode) (g : GraphKernel) :
  isascii (id a) = true -> isascii (id b) = true ->
  (forall e : exn,
     fst (calculate_connection_capacity a b g) = Raise e ->
     e = ValueError \/ e = OverflowError) /\
  (fst (calculate_connection_capacity a b g) = Raise ValueError <->
   py_int (slice_from_1 (id a)) = Raise ValueError \/
   py_int (slice_from_1 (id b)) = Raise ValueError) /\
  (fst (calculate_connection_capacity a b g) = Raise OverflowError <->
   exists x y : Z,
     py_int (slice_from_1 (id a)) = Ok x /\ py_int (slice_from_1 (id b)) = Ok y /\
     2 ^ 1024 - 2 ^ 970 <= Z.abs (x - y)).
Proof.
  intros _ _. rewrite capacity_unfold.
  cbn [_get_graph_distance _check_resonance InsightAwareKernel].
  rewrite mock_graph_distance_unfold.
  destruct (py_int (slice_from_1 (id a))) as [x|e1] eqn:E1.
  - destruct (py_int (slice_from_1 (id b))) as [y|e2] eqn:E2.
    + destruct (Z.leb_spec (Z.abs (x - y)) 1) as [Hle|Hgt].
      * cbn [fst]. split; [discriminate|]. split.
        { split; [discriminate|]. intros [?|?]; discriminate. }
        split; [discriminate|]. intros (x' & y' & [= <-] & [= <-] & Hbig).
        exfalso. lia.
      * unfold mock_check_resonance, ret. cbn [negb].
        pose proof (binary64.int_truediv_1_overflow_iff (Z.abs (x - y)) ltac:(lia))
          as Hthr.
        assert (Hov : forall e : exn,
                  int_truediv (Z.abs (x - y)) 1 = Raise e -> e = OverflowError).
        { intros e Ed. unfold int_truediv in Ed. cbn [Z.eqb] in Ed.
          destruct (SFdiv_core_binary prec emax (Z.abs (Z.abs (x - y))) 0 (Z.abs 1) 0)
            as [[q e0] l].
          destruct (binary_round_aux prec emax _ q e0 l); congruence. }
        destruct (int_truediv (Z.abs (x - y)) 1) as [r|e'] eqn:Ed; cbn [fst].
        -- split; [discriminate|]. split.
           { split; [discriminate|]. intros [?|?]; discriminate. }
           split; [discriminate|]. intros (x' & y' & [= <-] & [= <-] & Hbig).
           apply Hthr in Hbig. discriminate.
        -- rewrite (Hov e' eq_refl) in *.
           split; [intros e [= <-]; auto|]. split.
           { split; [discriminate|]. intros [?|?]; discriminate. }
           split; [|reflexivity]. intros _. exists x, y.
           split; [reflexivity|]. split; [reflexivity|]. apply Hthr. reflexivity.
    + rewrite (py_int_raises _ _ E2). cbn [fst].
      split; [intros e [= <-]; auto|]. split; [split; auto|].
      split; [discriminate|]. intros (x' & y' & _ & [=] & _).
  - rewrite (py_int_raises _ _ E1). cbn [fst].
    split; [intros e [= <-]; auto|]. split; [split; auto|].
    split; [discriminate|]. intros (x' & y' & [=] & _).
Qed.

(** The identifiers of the humor demo carry no integer: on its two nodes
    the method raises [ValueError]. *)
Lemma capacity_exceptions_witness :
  fst (calculate_connection_capacity uavi_humor.setup uavi_humor.punchline empty_graph)
    = Raise ValueError.
Proof.
  apply (proj2 (proj1 (proj2 (capacity_exceptions uavi_humor.setup uavi_humor.punchline
                                empty_graph eq_refl eq_refl)))).
  left. reflexivity.
Defined.

(** ** [_simulate_semantic_distance] and [measure_humor_potential] *)

Lemma shared_tags_comm (a b : ThoughtNode) : shared_tags a b = shared_tags b a.
Proof.
  unfold shared_tags.
  rewrite (comm_L (∩) (uavi_humor.tag_set a) (uavi_humor.tag_set b)). reflexivity.
Qed.

(** The two methods depend on the nodes through the number of shared tags
    only. *)
Lemma humor_by_shared_tags (a b a' b' : ThoughtNode) (g : GraphKernel) :
  shared_tags a b = shared_tags a' b' ->
  uavi_humor._simulate_semantic_distance a b g
    = uavi_humor._simulate_semantic_distance a' b' g /\
  uavi_humor.measure_humor_potential a b g
    = uavi_humor.measure_humor_potential a' b' g.
Proof.
  intros Heq. rewrite !measure_unfold, !simulate_unfold, Heq. split; reflexivity.
Qed.

(** X10: the simulated distance and the humor measurement are symmetric:
    exchanging setup and punchline changes neither. *)
Theorem humor_symmetric (a b : ThoughtNode) (g : GraphKernel) :
  uavi_humor._simulate_semantic_distance a b g
    = uavi_humor._simulate_semantic_distance b a g /\
  uavi_humor.measure_humor_potential a b g
    = uavi_humor.measure_humor_potential b a g.
Proof. apply humor_by_shared_tags, shared_tags_comm. Qed.

(** X11: a node whose metadata has no entry ['tags'], or an empty one, is
    at the distance [10.0] from every node, in either order, and from
    itself. *)
Theorem untagged_node_is_far (a b : ThoughtNode) (g : GraphKernel) :
  tags_of a = [] ->
  uavi_humor._simulate_semantic_distance a b g = (Ok float_10, g) /\
  uavi_humor._simulate_semantic_distance b a g = (Ok float_10, g) /\
  uavi_humor._simulate_semantic_distance a a g = (Ok float_10, g).
Proof.
  intros Hno.
  assert (Hempty : uavi_humor.tag_set a = ∅).
  { unfold uavi_humor.tag_set. fold (tags_of a). rewrite Hno. reflexivity. }
  assert (Hz : forall c, shared_tags a c = 0).
  { intros c. unfold shared_tags. rewrite Hempty.
    rewrite (left_absorb_L ∅ (∩)), size_empty. reflexivity. }
  rewrite !simulate_unfold, (shared_tags_comm b a), !Hz. repeat split.
Qed.

Lemma untagged_node_is_far_witness :
  uavi_humor._simulate_semantic_distance n1 uavi_humor.setup empty_graph
    = (Ok float_10, empty_graph) /\
  uavi_humor._simulate_semantic_distance uavi_humor.setup n1 empty_graph
    = (Ok float_10, empty_graph) /\
  uavi_humor._simulate_semantic_distance n1 n1 empty_graph
    = (Ok float_10, empty_graph).
Proof.
  apply (untagged_node_is_far n1 uavi_humor.setup empty_graph). reflexivity.
Defined.

(** X12: only the set of tags of a node matters, not their order nor
    their repetitions: two nodes whose tag lists have the same elements get
    the same distance and the same measurement against any node. *)
Theorem tag_order_and_repetition_ignored
    (a a' b : ThoughtNode) (g : GraphKernel) :
  (forall t : string, t ∈ tags_of a <-> t ∈ tags_of a') ->
  uavi_humor._simulate_semantic_distance a b g
    = uavi_humor._simulate_semantic_distance a' b g /\
  uavi_humor.measure_humor_potential a b g
    = uavi_humor.measure_humor_potential a' b g.
Proof.
  intros Hsame. apply humor_by_shared_tags.
  assert (Heq : uavi_humor.tag_set a = uavi_humor.tag_set a').
  { unfold uavi_humor.tag_set. fold (tags_of a) (tags_of a').
    apply set_eq. intros t. rewrite !elem_of_list_to_set. apply Hsame. }
  unfold shared_tags. rewrite Heq. reflexivity.
Qed.

Lemma tag_order_and_repetition_ignored_witness :
  uavi_humor._simulate_semantic_distance (node "x" ["cat"; "pet"; "cat"]) cat_fact
      empty_graph
    = uavi_humor._simulate_semantic_distance (node "y" ["pet"; "cat"]) cat_fact
        empty_graph /\
  uavi_humor.measure_humor_potential (node "x" ["cat"; "pet"; "cat"]) cat_fact
      empty_graph
    = uavi_humor.measure_humor_potential (node "y" ["pet"; "cat"]) cat_fact
        empty_graph.
Proof.
  apply (tag_order_and_repetition_ignored
           (node "x" ["cat"; "pet"; "cat"]) (node "y" ["pet"; "cat"])
           cat_fact empty_graph).
  intros t. change (tags_of (node "x" ["cat"; "pet"; "cat"]))
              with ["cat"; "pet"; "cat"]%string.
  change (tags_of (node "y" ["pet"; "cat"])) with ["pet"; "cat"]%string.
  rewrite !elem_of_cons, !elem_of_nil. tauto.
Defined.

(** X13: the compression ratio of a humor measurement is either exactly
    [10.0], when the two nodes share no tag, or above 0 and at most 1, when
    they share one or more; it is never 0 and never between 1 and 10.
    (The number of shared tags is at most [sys.maxsize].) *)
Theorem humor_ratio_range (a b : ThoughtNode) (g : GraphKernel) :
  shared_tags a b <= sys_maxsize ->
  exists x : float,
    uavi_humor.measure_humor_potential a b g =
      (Ok {| uavi_humor.surface_distance := x;
             uavi_humor.tunnel_distance := float_1;
             uavi_humor.compression_ratio := uavi_humor.PyFloat x |}, g) /\
    ((shared_tags a b = 0 /\ x = float_10) \/
     (1 <= shared_tags a b /\
      float_gt_int x 0 = true /\ float_le_int x 1 = true)).
Proof.
  intros Hsize. rewrite measure_unfold, simulate_unfold.
  assert (Hnn : 0 <= shared_tags a b) by (unfold shared_tags; lia).
  destruct (Z.ltb_spec 0 (shared_tags a b)) as [Hpos|Hzero].
  - destruct (float_of_count (shared_tags a b) ltac:(lia))
      as (m & e & Hy & Hb & He).
    pose proof (binary64.Zdigits2_pos (shared_tags a b) ltac:(lia)) as HD1.
    pose proof (binary64.Zdigits2_lt_pow2 (shared_tags a b) 63 ltac:(lia) ltac:(lia)
                  ltac:(unfold sys_maxsize in Hsize; lia)) as HD2.
    destruct (binary64.SFdiv_1_by_normal m e Hb ltac:(lia)) as (m' & e' & Hq & Hb').
    assert (Hx : float_truediv_int float_1 (shared_tags a b)
                 = Ok (S754_finite false m' e')).
    { unfold float_truediv_int. rewrite Hy. cbn [result_bind].
      unfold float_truediv. cbn [is_zero]. rewrite Hq. reflexivity. }
    rewrite Hx. exists (S754_finite false m' e'). split.
    + rewrite (binary64.SFdiv_1 (S754_finite false m' e') Hb'). reflexivity.
    + right. split; [lia|]. split; [apply binary64.float_gt_int_0|].
      destruct (Z.eq_dec (shared_tags a b) 1) as [Hone|Hmore].
      * rewrite Hone in Hx. vm_compute in Hx. injection Hx as <- <-.
        vm_compute. reflexivity.
      * pose proof (one_over_count_below_1 (shared_tags a b) _ ltac:(lia) Hx) as Hlt.
        unfold float_ge_int in Hlt. unfold float_le_int.
        cbn [float_cmp_int] in *.
        destruct (SF2Q (S754_finite false m' e') ?= inject_Z 1)%Q;
          [discriminate|reflexivity|discriminate].
  - exists float_10. split; [reflexivity|]. left. split; [lia|reflexivity].
Qed.

Lemma humor_ratio_range_witness :
  exists x : float,
    uavi_humor.measure_humor_potential cat_joke cat_fact empty_graph =
      (Ok {| uavi_humor.surface_distance := x;
             uavi_humor.tunnel_distance := float_1;
             uavi_humor.compression_ratio := uavi_humor.PyFloat x |}, empty_graph) /\
    ((shared_tags cat_joke cat_fact = 0 /\ x = float_10) \/
     (1 <= shared_tags cat_joke cat_fact /\
      float_gt_int x 0 = true /\ float_le_int x 1 = true)).
Proof.
  apply (humor_ratio_range cat_joke cat_fact empty_graph).
  vm_compute. discriminate.
Defined.
